(** * bfloat16: a shallow embedding of [include/bfloat16/bfloat16.hpp]

  The header defines one value type, [bf16::bfloat16_t], holding a
  [uint16_t].  Every operation is a pure function of the stored pattern,
  so the embedding is a record with one [Z] field and the C++ integer
  conversions (promotion, wrap-around on assignment to a narrower
  unsigned type) written out with [mod]. *)

From Stdlib Require Import ZArith Lia Bool.
From Stdlib Require Import SpecFloat.

Local Open Scope Z_scope.

(** ** Fixed-width unsigned integers *)

Definition to_uint16 (z : Z) : Z := z mod 2 ^ 16.
Definition to_uint32 (z : Z) : Z := z mod 2 ^ 32.

Definition is_uint16 (z : Z) : Prop := 0 <= z < 2 ^ 16.
Definition is_uint32 (z : Z) : Prop := 0 <= z < 2 ^ 32.

(** ** 32-bit floats

  A [float] is carried as its IEEE-754 binary32 bit pattern; this is all
  that [std::bit_cast] observes of it. *)

Record float : Set := bit_cast_float { bit_cast_uint32 : Z }.

Module binary32.

(** Field layout of a binary32 pattern: 1 sign bit, 8 exponent bits,
    23 mantissa bits. *)
Definition sign_field (f : float) : Z := Z.shiftr (bit_cast_uint32 f) 31.
Definition exponent_field (f : float) : Z :=
  Z.land (Z.shiftr (bit_cast_uint32 f) 23) 0xFF.
Definition mantissa_field (f : float) : Z :=
  Z.land (bit_cast_uint32 f) 0x7FFFFF.

Definition wf (f : float) : Prop := is_uint32 (bit_cast_uint32 f).

(** [std::isnan] and [std::isinf] read off the fields. *)
Definition isnan (f : float) : bool :=
  (exponent_field f =? 0xFF) && negb (mantissa_field f =? 0).
Definition isinf (f : float) : bool :=
  (exponent_field f =? 0xFF) && (mantissa_field f =? 0).
Definition signbit (f : float) : bool := negb (sign_field f =? 0).

(** The float literals that occur in the header and its tests. *)
Definition lit_0_0 : float := bit_cast_float 0x00000000.
Definition lit_neg_0_0 : float := bit_cast_float 0x80000000.
Definition lit_0_5 : float := bit_cast_float 0x3F000000.
Definition lit_1_0 : float := bit_cast_float 0x3F800000.
Definition lit_neg_1_0 : float := bit_cast_float 0xBF800000.
Definition lit_2_0 : float := bit_cast_float 0x40000000.
Definition lit_4_0 : float := bit_cast_float 0x40800000.
Definition lit_8_0 : float := bit_cast_float 0x41000000.
Definition lit_1_5 : float := bit_cast_float 0x3FC00000.
Definition lit_1_75 : float := bit_cast_float 0x3FE00000.
Definition lit_3_5 : float := bit_cast_float 0x40600000.
Definition lit_5_0 : float := bit_cast_float 0x40A00000.
Definition lit_7_0 : float := bit_cast_float 0x40E00000.
(** [std::numeric_limits<float>::max()], [infinity()], [-infinity()]. *)
Definition flt_max : float := bit_cast_float 0x7F7FFFFF.
Definition pos_infinity : float := bit_cast_float 0x7F800000.
Definition neg_infinity : float := bit_cast_float 0xFF800000.

(** *** Float arithmetic

    The built-in [+], [-], [*], [/] and [std::sqrt] on [float], as
    IEEE-754 binary32 with round-to-nearest-even: patterns are decoded to
    the standard library's [spec_float] at precision 24 and [emax] 128,
    the operation is done there, and the result is encoded again.

    IEEE-754 fixes every result bit for bit except the bits of a NaN
    result.  For those the model follows the x86-64 SSE unit: a NaN
    operand is returned with its quiet bit set (the first operand when
    both are NaN), and an invalid operation on operands that are not NaN
    returns the default NaN [0xFFC00000]. *)
Definition prec : Z := 24.
Definition emax : Z := 128.
Definition default_nan_bits : Z := 0xFFC00000.
Definition quiet_bit : Z := 0x00400000.

Definition decode (f : float) : spec_float :=
  let s := signbit f in
  let e := exponent_field f in
  let m := mantissa_field f in
  if e =? 0 then
    match m with
    | Zpos p => S754_finite s p (-149)
    | _ => S754_zero s
    end
  else if e =? 0xFF then
    if m =? 0 then S754_infinity s else S754_nan
  else
    match m + 2 ^ 23 with
    | Zpos p => S754_finite s p (e - 150)
    | _ => S754_nan
    end.

Definition sign_bits (s : bool) : Z := if s then 0x80000000 else 0.

Definition encode (x : spec_float) : float :=
  bit_cast_float
    match x with
    | S754_zero s => sign_bits s
    | S754_infinity s => sign_bits s + 0x7F800000
    | S754_nan => default_nan_bits
    | S754_finite s m e =>
        if Zpos m <? 2 ^ 23 then sign_bits s + Zpos m
        else sign_bits s + (e + 150) * 2 ^ 23 + (Zpos m - 2 ^ 23)
    end.

(** A NaN operand with its quiet bit set. *)
Definition quiet (f : float) : float :=
  bit_cast_float (Z.lor (bit_cast_uint32 f) quiet_bit).

(** The NaN operand that a binary operation hands back, if there is
    one. *)
Definition nan_operand (a b : float) : option float :=
  if isnan a then Some (quiet a)
  else if isnan b then Some (quiet b)
  else None.

Definition add (a b : float) : float :=
  match nan_operand a b with
  | Some r => r
  | None => encode (SFadd prec emax (decode a) (decode b))
  end.
Definition sub (a b : float) : float :=
  match nan_operand a b with
  | Some r => r
  | None => encode (SFsub prec emax (decode a) (decode b))
  end.
Definition mul (a b : float) : float :=
  match nan_operand a b with
  | Some r => r
  | None => encode (SFmul prec emax (decode a) (decode b))
  end.
Definition div (a b : float) : float :=
  match nan_operand a b with
  | Some r => r
  | None => encode (SFdiv prec emax (decode a) (decode b))
  end.
(** [std::sqrt] on [float] is correctly rounded as well. *)
Definition sqrt (a : float) : float :=
  if isnan a then quiet a else encode (SFsqrt prec emax (decode a)).

End binary32.

(** ** namespace bf16 *)

Module bf16.

Record bfloat16_t : Set := mk_bfloat16_t { data : Z }.

(** The class invariant of a [uint16_t] member. *)
Definition valid (x : bfloat16_t) : Prop := is_uint16 (data x).

Definition SIGN_MASK : Z := 0x8000.
Definition EXP_MASK : Z := 0x7F80.
Definition MANT_MASK : Z := 0x007F.
Definition EXP_SHIFT : Z := 7.
Definition EXP_BIAS : Z := 127.

Definition get_sign_mask : Z := SIGN_MASK.

(** [bfloat16_t()] *)
Definition bfloat16_t_default : bfloat16_t := mk_bfloat16_t 0.

(** [bfloat16_t(float value)]: add [0x7FFF] in [uint32_t] arithmetic,
    keep the upper half. *)
Definition bfloat16_t_from_float (value : float) : bfloat16_t :=
  let float_bits := bit_cast_uint32 value in
  let float_bits := to_uint32 (float_bits + 0x7FFF) in
  mk_bfloat16_t (to_uint16 (Z.shiftr float_bits 16)).

(** [operator float()] *)
Definition operator_float (this : bfloat16_t) : float :=
  let float_bits := to_uint32 (Z.shiftl (to_uint32 (data this)) 16) in
  bit_cast_float float_bits.

(** [bits() const] and the assignment through [uint16_t& bits()]. *)
Definition bits (this : bfloat16_t) : Z := data this.
Definition set_bits (this : bfloat16_t) (v : Z) : bfloat16_t :=
  mk_bfloat16_t (to_uint16 v).


(** Defaulted [operator<=>] and [operator==]: member-wise on the single
    [uint16_t] member, so the result type is [std::strong_ordering]. *)
Inductive strong_ordering : Set := less | equal | greater.

Definition operator_spaceship (this other : bfloat16_t) : strong_ordering :=
  match data this ?= data other with
  | Lt => less
  | Eq => equal
  | Gt => greater
  end.

Definition operator_eq (this other : bfloat16_t) : bool :=
  data this =? data other.

(** The relational operators are rewritten by the language in terms of
    [operator<=>]; [!=] in terms of [operator==]. *)
Definition operator_ne (this other : bfloat16_t) : bool :=
  negb (operator_eq this other).
Definition operator_lt (this other : bfloat16_t) : bool :=
  match operator_spaceship this other with less => true | _ => false end.
Definition operator_gt (this other : bfloat16_t) : bool :=
  match operator_spaceship this other with greater => true | _ => false end.
Definition operator_le (this other : bfloat16_t) : bool :=
  match operator_spaceship this other with greater => false | _ => true end.
Definition operator_ge (this other : bfloat16_t) : bool :=
  match operator_spaceship this other with less => false | _ => true end.

(** Unary [operator-()]: [data ^ SIGN_MASK] is computed in [uint32_t] and
    stored back into the [uint16_t] member. *)
Definition operator_neg (this : bfloat16_t) : bfloat16_t :=
  let result := bfloat16_t_default in
  let result := mk_bfloat16_t (to_uint16 (Z.lxor (data this) SIGN_MASK)) in
  result.

(** Utility functions.  [~SIGN_MASK] is taken in [uint32_t]. *)
Definition is_nan (this : bfloat16_t) : bool :=
  (Z.land (data this) EXP_MASK =? EXP_MASK)
  && negb (Z.land (data this) MANT_MASK =? 0).

Definition is_infinity (this : bfloat16_t) : bool :=
  (Z.land (data this) EXP_MASK =? EXP_MASK)
  && (Z.land (data this) MANT_MASK =? 0).

Definition is_zero (this : bfloat16_t) : bool :=
  Z.land (data this) (to_uint32 (Z.lnot SIGN_MASK)) =? 0.

Definition is_negative (this : bfloat16_t) : bool :=
  negb (Z.land (data this) SIGN_MASK =? 0).

Definition to_int16 (z : Z) : Z := (z + 2 ^ 15) mod 2 ^ 16 - 2 ^ 15.
Definition INT16_MAX : Z := 32767.

Definition get_exponent (this : bfloat16_t) : Z :=
  if is_zero this then 0
  else if is_nan this || is_infinity this then INT16_MAX
  else to_int16
         (to_uint32 (Z.shiftr (Z.land (data this) EXP_MASK) EXP_SHIFT - EXP_BIAS)).

Definition get_mantissa (this : bfloat16_t) : Z :=
  to_uint16 (Z.land (data this) MANT_MASK).

Definition get_sign (this : bfloat16_t) : bool := is_negative this.

(** Special value constructors. *)
Definition zero : bfloat16_t := mk_bfloat16_t (to_uint16 0).
Definition infinity : bfloat16_t := mk_bfloat16_t (to_uint16 EXP_MASK).
Definition negative_infinity : bfloat16_t :=
  mk_bfloat16_t (to_uint16 (Z.lor SIGN_MASK EXP_MASK)).
Definition nan : bfloat16_t :=
  mk_bfloat16_t (to_uint16 (Z.lor EXP_MASK 0x0001)).

(** [abs]: clears the sign bit through the raw-bits accessor. *)
Definition abs (x : bfloat16_t) : bfloat16_t :=
  set_bits bfloat16_t_default
           (Z.land (bits x) (to_uint32 (Z.lnot get_sign_mask))).

(** *** Arithmetic

    The four float operations belong to the platform; the operators below
    are the header's code over whatever binary32 arithmetic it is compiled
    against.  A compound assignment is a function from the receiver's old
    value to its new one. *)
Section Arithmetic.

Variables float_add float_sub float_mul float_div : float -> float -> float.

Definition operator_add_assign (this other : bfloat16_t) : bfloat16_t :=
  bfloat16_t_from_float (float_add (operator_float this) (operator_float other)).

Definition operator_sub_assign (this other : bfloat16_t) : bfloat16_t :=
  bfloat16_t_from_float (float_sub (operator_float this) (operator_float other)).

Definition operator_mul_assign (this other : bfloat16_t) : bfloat16_t :=
  bfloat16_t_from_float (float_mul (operator_float this) (operator_float other)).

Definition operator_div_assign (this other : bfloat16_t) : bfloat16_t :=
  bfloat16_t_from_float (float_div (operator_float this) (operator_float other)).

(** The binary operators take [lhs] by value, apply the compound
    assignment to that copy and return it. *)
Definition operator_add (lhs rhs : bfloat16_t) : bfloat16_t :=
  let lhs := operator_add_assign lhs rhs in lhs.

Definition operator_sub (lhs rhs : bfloat16_t) : bfloat16_t :=
  let lhs := operator_sub_assign lhs rhs in lhs.

Definition operator_mul (lhs rhs : bfloat16_t) : bfloat16_t :=
  let lhs := operator_mul_assign lhs rhs in lhs.

Definition operator_div (lhs rhs : bfloat16_t) : bfloat16_t :=
  let lhs := operator_div_assign lhs rhs in lhs.

End Arithmetic.

(** *** Math functions

    Each one widens its operand, calls the platform's float function and
    narrows what comes back; the float functions are parameters as
    above. *)
Section MathFunctions.

Variables float_sqrt float_exp float_log float_sin float_cos float_tan :
  float -> float.
Variable float_pow : float -> float -> float.

Definition sqrt (x : bfloat16_t) : bfloat16_t :=
  bfloat16_t_from_float (float_sqrt (operator_float x)).

Definition exp (x : bfloat16_t) : bfloat16_t :=
  bfloat16_t_from_float (float_exp (operator_float x)).

Definition log (x : bfloat16_t) : bfloat16_t :=
  bfloat16_t_from_float (float_log (operator_float x)).

Definition sin (x : bfloat16_t) : bfloat16_t :=
  bfloat16_t_from_float (float_sin (operator_float x)).

Definition cos (x : bfloat16_t) : bfloat16_t :=
  bfloat16_t_from_float (float_cos (operator_float x)).

Definition tan (x : bfloat16_t) : bfloat16_t :=
  bfloat16_t_from_float (float_tan (operator_float x)).

Definition pow (x y : bfloat16_t) : bfloat16_t :=
  bfloat16_t_from_float (float_pow (operator_float x) (operator_float y)).

End MathFunctions.

(** *** The operators as compiled

    [float] is IEEE-754 binary32, so inside the class [+] on two floats is
    binary32 addition, [-] subtraction, [*] multiplication and [/]
    division.  These are the operators of the header with that arithmetic
    in place. *)
Module ieee754.

Definition operator_add_assign (this other : bfloat16_t) : bfloat16_t :=
  bfloat16_t_from_float
    (binary32.add (operator_float this) (operator_float other)).

Definition operator_sub_assign (this other : bfloat16_t) : bfloat16_t :=
  bfloat16_t_from_float
    (binary32.sub (operator_float this) (operator_float other)).

Definition operator_mul_assign (this other : bfloat16_t) : bfloat16_t :=
  bfloat16_t_from_float
    (binary32.mul (operator_float this) (operator_float other)).

Definition operator_div_assign (this other : bfloat16_t) : bfloat16_t :=
  bfloat16_t_from_float
    (binary32.div (operator_float this) (operator_float other)).

Definition operator_add (lhs rhs : bfloat16_t) : bfloat16_t :=
  let lhs := operator_add_assign lhs rhs in lhs.

Definition operator_sub (lhs rhs : bfloat16_t) : bfloat16_t :=
  let lhs := operator_sub_assign lhs rhs in lhs.

Definition operator_mul (lhs rhs : bfloat16_t) : bfloat16_t :=
  let lhs := operator_mul_assign lhs rhs in lhs.

Definition operator_div (lhs rhs : bfloat16_t) : bfloat16_t :=
  let lhs := operator_div_assign lhs rhs in lhs.

End ieee754.

End bf16.

(** ** std::numeric_limits<bf16::bfloat16_t> *)

Module numeric_limits.

Import bf16.

Definition digits : Z := 8.
Definition min_exponent : Z := -126.
Definition max_exponent : Z := 127.

Definition min : bfloat16_t := set_bits bfloat16_t_default 0x0080.
Definition lowest : bfloat16_t := set_bits bfloat16_t_default 0xFF7F.
Definition max : bfloat16_t := set_bits bfloat16_t_default 0x7F7F.
Definition epsilon : bfloat16_t := set_bits bfloat16_t_default 0x3C00.
Definition round_error : bfloat16_t := bfloat16_t_from_float binary32.lit_0_5.
Definition infinity : bfloat16_t := bf16.infinity.
Definition quiet_NaN : bfloat16_t := bf16.nan.
Definition denorm_min : bfloat16_t := set_bits bfloat16_t_default 0x0001.

End numeric_limits.

(** ** Proof automation *)

(** Powers of two become numerals, shifts and masks become quotients and
    remainders, and linear arithmetic finishes. *)
Ltac pow2_numerals :=
  change (2 ^ 32) with 4294967296 in *;
  change (2 ^ 31) with 2147483648 in *;
  change (2 ^ 23) with 8388608 in *;
  change (2 ^ 16) with 65536 in *;
  change (2 ^ 15) with 32768 in *;
  change (2 ^ 8) with 256 in *;
  change (2 ^ 7) with 128 in *;
  change (2 ^ 1) with 2 in *.

Ltac divmod_lia := pow2_numerals; Z.div_mod_to_equations; lia.

(** * Properties *)

Import bf16.

(** ** Wrap-around and bit-field lemmas *)

Lemma to_uint16_range (z : Z) : is_uint16 (to_uint16 z).
Proof. unfold is_uint16, to_uint16. apply Z.mod_pos_bound. reflexivity. Qed.

Lemma to_uint32_range (z : Z) : is_uint32 (to_uint32 z).
Proof. unfold is_uint32, to_uint32. apply Z.mod_pos_bound. reflexivity. Qed.

Lemma to_uint16_small (z : Z) : is_uint16 z -> to_uint16 z = z.
Proof. unfold is_uint16, to_uint16. intros H. now apply Z.mod_small. Qed.

Lemma to_uint32_small (z : Z) : is_uint32 z -> to_uint32 z = z.
Proof. unfold is_uint32, to_uint32. intros H. now apply Z.mod_small. Qed.

Lemma is_uint16_32 (z : Z) : is_uint16 z -> is_uint32 z.
Proof. unfold is_uint16, is_uint32. change (2 ^ 16) with 65536. change (2 ^ 32) with 4294967296. lia. Qed.

(** The upper half of a 32-bit word is a 16-bit word. *)
Lemma upper_half_range (w : Z) : is_uint32 w -> is_uint16 (Z.shiftr w 16).
Proof.
  unfold is_uint32, is_uint16. intros [Hlo Hhi].
  rewrite Z.shiftr_div_pow2 by lia.
  change (2 ^ 32) with (2 ^ 16 * 2 ^ 16) in Hhi.
  split.
  - apply Z.div_pos; [assumption | reflexivity].
  - apply Z.div_lt_upper_bound; [reflexivity | assumption].
Qed.

(** Masking with a run of [n] ones starting at bit [k] extracts the field
    and leaves it in place. *)
Lemma land_field (d n k : Z) :
  0 <= n -> 0 <= k ->
  Z.land d (Z.shiftl (Z.ones n) k) = Z.shiftl (Z.shiftr d k mod 2 ^ n) k.
Proof.
  intros Hn Hk. rewrite <- Z.land_ones by assumption.
  apply Z.bits_inj'. intros i Hi.
  rewrite Z.land_spec, !Z.shiftl_spec by assumption.
  destruct (Z.ltb_spec i k) as [Hlt | Hge].
  - rewrite !(Z.testbit_neg_r _ (i - k)) by lia. apply andb_false_r.
  - rewrite Z.land_spec, Z.shiftr_spec by lia.
    replace (i - k + k) with i by lia. reflexivity.
Qed.

Lemma land_EXP_MASK (d : Z) :
  Z.land d EXP_MASK = (d / 2 ^ 7) mod 2 ^ 8 * 2 ^ 7.
Proof.
  change EXP_MASK with (Z.shiftl (Z.ones 8) 7).
  rewrite land_field by lia.
  rewrite Z.shiftl_mul_pow2, Z.shiftr_div_pow2 by lia. reflexivity.
Qed.

Lemma land_MANT_MASK (d : Z) : Z.land d MANT_MASK = d mod 2 ^ 7.
Proof. change MANT_MASK with (Z.ones 7). apply Z.land_ones. lia. Qed.

Lemma land_SIGN_MASK (d : Z) :
  Z.land d SIGN_MASK = (d / 2 ^ 15) mod 2 ^ 1 * 2 ^ 15.
Proof.
  change SIGN_MASK with (Z.shiftl (Z.ones 1) 15).
  rewrite land_field by lia.
  rewrite Z.shiftl_mul_pow2, Z.shiftr_div_pow2 by lia. reflexivity.
Qed.

(** The stored pattern written as quotient and remainder. *)
Lemma from_float_data (f : float) :
  data (bfloat16_t_from_float f)
  = ((bit_cast_uint32 f + 0x7FFF) mod 2 ^ 32) / 2 ^ 16.
Proof.
  unfold bfloat16_t_from_float. cbn [data].
  rewrite to_uint16_small by (apply upper_half_range, to_uint32_range).
  unfold to_uint32. apply Z.shiftr_div_pow2. lia.
Qed.

Lemma from_float_valid (f : float) : valid (bfloat16_t_from_float f).
Proof. unfold valid, bfloat16_t_from_float. cbn [data]. apply to_uint16_range. Qed.

Lemma operator_float_bits (x : bfloat16_t) :
  valid x -> bit_cast_uint32 (operator_float x) = data x * 2 ^ 16.
Proof.
  intros Hx. unfold operator_float. cbn [bit_cast_uint32].
  rewrite (to_uint32_small (data x)) by now apply is_uint16_32.
  rewrite Z.shiftl_mul_pow2 by lia.
  apply to_uint32_small. unfold valid, is_uint16 in Hx. unfold is_uint32.
  change (2 ^ 32) with (2 ^ 16 * 2 ^ 16). nia.
Qed.

Lemma operator_float_wf (x : bfloat16_t) : binary32.wf (operator_float x).
Proof. unfold binary32.wf, operator_float. cbn [bit_cast_uint32]. apply to_uint32_range. Qed.

(** ** Narrowing *)

(** C1: constructing a [bfloat16_t] from any float [f] stores exactly
    [((bit_cast<uint32>(f) + 0x7FFF) mod 2^32) >> 16]; at the finite input
    [FLT_MAX] (bits [0x7F7FFFFF]) the carry of the add reaches the exponent
    field and the stored pattern is the infinity pattern [0x7F80]. *)
Theorem C1_from_float_stores_rounded_upper_half :
  (forall f : float,
      bits (bfloat16_t_from_float f)
      = Z.shiftr ((bit_cast_uint32 f + 0x7FFF) mod 2 ^ 32) 16)
  /\ binary32.isnan binary32.flt_max = false
  /\ binary32.isinf binary32.flt_max = false
  /\ bits (bfloat16_t_from_float binary32.flt_max) = 0x7F80
  /\ bfloat16_t_from_float binary32.flt_max = infinity
  /\ is_infinity (bfloat16_t_from_float binary32.flt_max) = true.
Proof.
  split; [| repeat split; reflexivity].
  intros f. unfold bits. rewrite from_float_data.
  symmetry. apply Z.shiftr_div_pow2. lia.
Qed.

Lemma low_half_zero (w : Z) : Z.land w 0xFFFF = 0 <-> w mod 2 ^ 16 = 0.
Proof. change 0xFFFF with (Z.ones 16). rewrite Z.land_ones by lia. reflexivity. Qed.

(** Narrowing a word whose lower half is zero keeps its upper half. *)
Lemma from_float_exact (f : float) :
  binary32.wf f ->
  Z.land (bit_cast_uint32 f) 0xFFFF = 0 ->
  data (bfloat16_t_from_float f) = bit_cast_uint32 f / 2 ^ 16.
Proof.
  intros Hwf Hlow. rewrite from_float_data.
  apply low_half_zero in Hlow.
  unfold binary32.wf, is_uint32 in Hwf. divmod_lia.
Qed.

(** Widening what was narrowed from such a word rebuilds the word. *)
Lemma narrow_widen_exact (f : float) :
  binary32.wf f ->
  Z.land (bit_cast_uint32 f) 0xFFFF = 0 ->
  operator_float (bfloat16_t_from_float f) = f.
Proof.
  intros Hwf Hlow. destruct f as [w].
  pose proof (operator_float_bits _ (from_float_valid (bit_cast_float w))) as Hb.
  rewrite (from_float_exact _ Hwf Hlow) in Hb.
  destruct (operator_float _) as [w']. cbn [bit_cast_uint32] in *.
  f_equal. apply low_half_zero in Hlow. divmod_lia.
Qed.

(** C2: for every float [f] whose lower 16 bits are zero, narrowing and
    widening again gives [f] back bit for bit; the literals [0.0], [1.0],
    [2.0], [4.0] and [8.0] are instances. *)
Theorem C2_exact_round_trip (f : float) :
  binary32.wf f ->
  Z.land (bit_cast_uint32 f) 0xFFFF = 0 ->
  operator_float (bfloat16_t_from_float f) = f.
Proof. exact (narrow_widen_exact f). Qed.

Lemma C2_exact_round_trip_witness :
  operator_float (bfloat16_t_from_float binary32.lit_0_0) = binary32.lit_0_0
  /\ operator_float (bfloat16_t_from_float binary32.lit_1_0) = binary32.lit_1_0
  /\ operator_float (bfloat16_t_from_float binary32.lit_2_0) = binary32.lit_2_0
  /\ operator_float (bfloat16_t_from_float binary32.lit_4_0) = binary32.lit_4_0
  /\ operator_float (bfloat16_t_from_float binary32.lit_8_0) = binary32.lit_8_0.
Proof.
  assert (forall w, 0 <= w < 2 ^ 32 -> binary32.wf (bit_cast_float w)) as Hwf
      by (intros w Hw; exact Hw).
  split; [| split; [| split; [| split]]];
    (apply C2_exact_round_trip; [apply Hwf; cbn; lia | reflexivity]).
Defined.

(** The floats with a zero lower half are exactly the widened 16-bit
    patterns, so the round trip can be read from either side. *)
Lemma widened_low_half_zero (x : bfloat16_t) :
  valid x -> Z.land (bit_cast_uint32 (operator_float x)) 0xFFFF = 0.
Proof.
  intros Hx. rewrite operator_float_bits by assumption.
  apply low_half_zero. apply Z.mod_mul. lia.
Qed.

Lemma low_half_zero_widened (f : float) :
  binary32.wf f ->
  Z.land (bit_cast_uint32 f) 0xFFFF = 0 ->
  exists x, valid x /\ f = operator_float x.
Proof.
  intros Hwf Hlow. exists (bfloat16_t_from_float f).
  split; [apply from_float_valid | symmetry; now apply narrow_widen_exact].
Qed.

Lemma round_trip_widened (x : bfloat16_t) :
  valid x -> bfloat16_t_from_float (operator_float x) = x.
Proof.
  intros Hx. destruct x as [d].
  pose proof (from_float_exact _ (operator_float_wf (mk_bfloat16_t d))
                (widened_low_half_zero _ Hx)) as Hd.
  rewrite operator_float_bits in Hd by assumption.
  destruct (bfloat16_t_from_float _) as [d']. cbn [data] in *.
  f_equal. rewrite Hd. apply Z.div_mul. lia.
Qed.

(** ** Classification, arithmetically *)

Lemma exponent_field_eq (f : float) :
  binary32.exponent_field f = (bit_cast_uint32 f / 2 ^ 23) mod 2 ^ 8.
Proof.
  unfold binary32.exponent_field. change 0xFF with (Z.ones 8).
  rewrite Z.land_ones, Z.shiftr_div_pow2 by lia. reflexivity.
Qed.

Lemma mantissa_field_eq (f : float) :
  binary32.mantissa_field f = bit_cast_uint32 f mod 2 ^ 23.
Proof.
  unfold binary32.mantissa_field. change 0x7FFFFF with (Z.ones 23).
  apply Z.land_ones. lia.
Qed.

Lemma sign_field_eq (f : float) :
  binary32.sign_field f = bit_cast_uint32 f / 2 ^ 31.
Proof. unfold binary32.sign_field. apply Z.shiftr_div_pow2. lia. Qed.

Lemma isnan_true (f : float) :
  binary32.isnan f = true
  <-> (bit_cast_uint32 f / 2 ^ 23) mod 2 ^ 8 = 255
      /\ bit_cast_uint32 f mod 2 ^ 23 <> 0.
Proof.
  unfold binary32.isnan.
  rewrite andb_true_iff, negb_true_iff, Z.eqb_eq, Z.eqb_neq.
  rewrite exponent_field_eq, mantissa_field_eq. reflexivity.
Qed.

Lemma isinf_true (f : float) :
  binary32.isinf f = true
  <-> (bit_cast_uint32 f / 2 ^ 23) mod 2 ^ 8 = 255
      /\ bit_cast_uint32 f mod 2 ^ 23 = 0.
Proof.
  unfold binary32.isinf.
  rewrite andb_true_iff, !Z.eqb_eq.
  rewrite exponent_field_eq, mantissa_field_eq. reflexivity.
Qed.

Lemma is_nan_true (x : bfloat16_t) :
  is_nan x = true
  <-> (data x / 2 ^ 7) mod 2 ^ 8 = 255 /\ data x mod 2 ^ 7 <> 0.
Proof.
  unfold is_nan.
  rewrite andb_true_iff, negb_true_iff, Z.eqb_eq, Z.eqb_neq.
  rewrite land_EXP_MASK, land_MANT_MASK. unfold EXP_MASK.
  pow2_numerals. split; intros [H1 H2]; split; lia.
Qed.

Lemma is_infinity_true (x : bfloat16_t) :
  is_infinity x = true
  <-> (data x / 2 ^ 7) mod 2 ^ 8 = 255 /\ data x mod 2 ^ 7 = 0.
Proof.
  unfold is_infinity.
  rewrite andb_true_iff, !Z.eqb_eq.
  rewrite land_EXP_MASK, land_MANT_MASK. unfold EXP_MASK.
  pow2_numerals. split; intros [H1 H2]; split; lia.
Qed.

Lemma is_negative_true (x : bfloat16_t) :
  valid x -> (is_negative x = true <-> 2 ^ 15 <= data x).
Proof.
  unfold valid, is_uint16, is_negative. intros Hx.
  rewrite negb_true_iff, Z.eqb_neq, land_SIGN_MASK.
  split; intros H; divmod_lia.
Qed.

(** ** NaN inputs *)

(** Which NaN inputs are still NaN after narrowing: exactly those whose
    23-bit mantissa lies in [[0x8001, 0x7F8000]].  Below that range the
    retained mantissa bits are all zero and nothing is carried in; above
    it the carry runs through the exponent field. *)
Lemma from_float_nan_iff (f : float) :
  binary32.wf f ->
  binary32.isnan f = true ->
  is_nan (bfloat16_t_from_float f) = true
  <-> 0x8001 <= binary32.mantissa_field f <= 0x7F8000.
Proof.
  unfold binary32.wf, is_uint32. intros Hwf Hnan.
  apply isnan_true in Hnan. destruct Hnan as [He Hm].
  rewrite is_nan_true, from_float_data, mantissa_field_eq.
  split; intros H; [destruct H as [H1 H2] | split]; divmod_lia.
Qed.

(** The quiet NaN of the test suite ([0x7FC00000]) is inside that range. *)
Lemma from_float_quiet_NaN :
  binary32.isnan (bit_cast_float 0x7FC00000) = true
  /\ is_nan (bfloat16_t_from_float (bit_cast_float 0x7FC00000)) = true.
Proof. split; reflexivity. Qed.

(** C3: narrowing a NaN float does not always give a NaN.  The NaN
    [0x7F800001] narrows to the infinity pattern [0x7F80], and the NaN
    [0x7FFFFFFF] narrows to [0x8000], negative zero: on both, [is_nan()] of
    the result is false. *)
Theorem C3_from_float_loses_nan :
  binary32.isnan (bit_cast_float 0x7F800001) = true
  /\ is_nan (bfloat16_t_from_float (bit_cast_float 0x7F800001)) = false
  /\ bfloat16_t_from_float (bit_cast_float 0x7F800001) = infinity
  /\ binary32.isnan (bit_cast_float 0x7FFFFFFF) = true
  /\ is_nan (bfloat16_t_from_float (bit_cast_float 0x7FFFFFFF)) = false
  /\ bits (bfloat16_t_from_float (bit_cast_float 0x7FFFFFFF)) = 0x8000
  /\ is_zero (bfloat16_t_from_float (bit_cast_float 0x7FFFFFFF)) = true.
Proof. repeat split; reflexivity. Qed.

(** ** Infinite inputs *)

Lemma isinf_cases (f : float) :
  binary32.wf f ->
  binary32.isinf f = true ->
  f = binary32.pos_infinity \/ f = binary32.neg_infinity.
Proof.
  unfold binary32.wf, is_uint32. intros Hwf Hinf.
  apply isinf_true in Hinf. destruct Hinf as [He Hm].
  destruct f as [w]. cbn [bit_cast_uint32] in *.
  assert (w = 0x7F800000 \/ w = 0xFF800000) as [-> | ->] by divmod_lia;
    [left | right]; reflexivity.
Qed.

(** C7: every infinite float narrows to a value that [is_infinity()]
    accepts and that has the sign of the input; [+inf] gives the pattern
    [0x7F80] and [-inf] gives [0xFF80]. *)
Theorem C7_from_float_keeps_infinity (f : float) :
  binary32.wf f ->
  binary32.isinf f = true ->
  is_infinity (bfloat16_t_from_float f) = true
  /\ is_negative (bfloat16_t_from_float f) = binary32.signbit f
  /\ ((f = binary32.pos_infinity /\ bits (bfloat16_t_from_float f) = 0x7F80)
      \/ (f = binary32.neg_infinity /\ bits (bfloat16_t_from_float f) = 0xFF80)).
Proof.
  intros Hwf Hinf.
  destruct (isinf_cases f Hwf Hinf) as [-> | ->].
  - repeat split. left. split; reflexivity.
  - repeat split. right. split; reflexivity.
Qed.

Lemma C7_from_float_keeps_infinity_witness :
  is_infinity (bfloat16_t_from_float binary32.neg_infinity) = true
  /\ is_negative (bfloat16_t_from_float binary32.neg_infinity)
     = binary32.signbit binary32.neg_infinity
  /\ ((binary32.neg_infinity = binary32.pos_infinity
       /\ bits (bfloat16_t_from_float binary32.neg_infinity) = 0x7F80)
      \/ (binary32.neg_infinity = binary32.neg_infinity
          /\ bits (bfloat16_t_from_float binary32.neg_infinity) = 0xFF80)).
Proof.
  apply (C7_from_float_keeps_infinity binary32.neg_infinity).
  - unfold binary32.wf, is_uint32. cbn. lia.
  - reflexivity.
Defined.

(** ** Unary negation *)

(** Xor with the sign mask adds or removes [2^15]. *)
Lemma lxor_SIGN_MASK (d : Z) :
  Z.lxor d SIGN_MASK = d + 2 ^ 15 - 2 * ((d / 2 ^ 15) mod 2 ^ 1 * 2 ^ 15).
Proof.
  pose proof (Z.add_lxor_2land d SIGN_MASK) as H.
  rewrite land_SIGN_MASK in H. unfold SIGN_MASK in *.
  pow2_numerals. lia.
Qed.

Lemma operator_neg_data (x : bfloat16_t) :
  valid x ->
  data (operator_neg x) = Z.lxor (data x) SIGN_MASK
  /\ is_uint16 (Z.lxor (data x) SIGN_MASK).
Proof.
  unfold valid, is_uint16. intros Hx.
  assert (0 <= Z.lxor (data x) SIGN_MASK < 2 ^ 16) as Hr
      by (rewrite lxor_SIGN_MASK; divmod_lia).
  split; [| exact Hr].
  unfold operator_neg. cbn [data]. now apply to_uint16_small.
Qed.

Lemma operator_neg_valid (x : bfloat16_t) : valid (operator_neg x).
Proof. unfold valid, operator_neg. cbn [data]. apply to_uint16_range. Qed.

Lemma operator_neg_involutive (x : bfloat16_t) :
  valid x -> operator_neg (operator_neg x) = x.
Proof.
  intros Hx.
  destruct (operator_neg_data _ (operator_neg_valid x)) as [H2 _].
  destruct (operator_neg_data _ Hx) as [H1 _].
  rewrite H1 in H2.
  rewrite Z.lxor_assoc, Z.lxor_nilpotent, Z.lxor_0_r in H2.
  destruct x as [d], (operator_neg (operator_neg _)) as [d'].
  cbn [data] in H2. now f_equal.
Qed.

Lemma operator_neg_fields (x : bfloat16_t) :
  valid x ->
  Z.land (data (operator_neg x)) EXP_MASK = Z.land (data x) EXP_MASK
  /\ Z.land (data (operator_neg x)) MANT_MASK = Z.land (data x) MANT_MASK
  /\ Z.land (data (operator_neg x)) SIGN_MASK
     = SIGN_MASK - Z.land (data x) SIGN_MASK.
Proof.
  intros Hx. destruct (operator_neg_data x Hx) as [-> _].
  rewrite !land_EXP_MASK, !land_MANT_MASK, !land_SIGN_MASK, lxor_SIGN_MASK.
  unfold valid, is_uint16 in Hx. unfold SIGN_MASK.
  repeat split; divmod_lia.
Qed.

(** C8: for every stored pattern (NaN and infinity patterns included),
    unary negation returns the pattern xor [0x8000]: the exponent and
    mantissa fields are unchanged, the sign bit is flipped, the
    classification is kept, and negating twice gives the value back. *)
Theorem C8_negation_flips_only_the_sign_bit (x : bfloat16_t) :
  valid x ->
  bits (operator_neg x) = Z.lxor (bits x) 0x8000
  /\ Z.land (bits (operator_neg x)) EXP_MASK = Z.land (bits x) EXP_MASK
  /\ Z.land (bits (operator_neg x)) MANT_MASK = Z.land (bits x) MANT_MASK
  /\ get_mantissa (operator_neg x) = get_mantissa x
  /\ is_negative (operator_neg x) = negb (is_negative x)
  /\ is_nan (operator_neg x) = is_nan x
  /\ is_infinity (operator_neg x) = is_infinity x
  /\ operator_neg (operator_neg x) = x.
Proof.
  intros Hx. unfold bits.
  destruct (operator_neg_fields x Hx) as (He & Hm & Hs).
  split; [apply (operator_neg_data x Hx) |].
  split; [exact He |]. split; [exact Hm |].
  split; [unfold get_mantissa; now rewrite Hm |].
  split.
  - unfold is_negative. rewrite Hs.
    pose proof (land_SIGN_MASK (data x)) as Hd. unfold SIGN_MASK in *.
    destruct (Z.eqb_spec (Z.land (data x) 32768) 0) as [E | E];
      [rewrite E; reflexivity |].
    cbn [negb]. apply negb_false_iff, Z.eqb_eq. divmod_lia.
  - split; [unfold is_nan; now rewrite He, Hm |].
    split; [unfold is_infinity; now rewrite He, Hm |].
    now apply operator_neg_involutive.
Qed.

Lemma C8_negation_flips_only_the_sign_bit_witness :
  bits (operator_neg nan) = Z.lxor (bits nan) 0x8000
  /\ Z.land (bits (operator_neg nan)) EXP_MASK = Z.land (bits nan) EXP_MASK
  /\ Z.land (bits (operator_neg nan)) MANT_MASK = Z.land (bits nan) MANT_MASK
  /\ get_mantissa (operator_neg nan) = get_mantissa nan
  /\ is_negative (operator_neg nan) = negb (is_negative nan)
  /\ is_nan (operator_neg nan) = is_nan nan
  /\ is_infinity (operator_neg nan) = is_infinity nan
  /\ operator_neg (operator_neg nan) = nan.
Proof.
  apply (C8_negation_flips_only_the_sign_bit nan).
  unfold valid, is_uint16. cbn. lia.
Defined.

(** ** Comparisons *)

Lemma operator_spaceship_compare (x y : bfloat16_t) :
  (operator_spaceship x y = less <-> data x < data y)
  /\ (operator_spaceship x y = equal <-> data x = data y)
  /\ (operator_spaceship x y = greater <-> data y < data x).
Proof.
  unfold operator_spaceship.
  destruct (Z.compare_spec (data x) (data y)) as [E | L | G];
    repeat split; intros H; solve [reflexivity | discriminate | lia].
Qed.

Lemma operator_gt_true (x y : bfloat16_t) :
  operator_gt x y = true <-> data y < data x.
Proof.
  unfold operator_gt.
  destruct (operator_spaceship_compare x y) as (Hl & He & Hg).
  destruct (operator_spaceship x y); split; intros H;
    solve [reflexivity | discriminate | lia
          | apply Hg; reflexivity
          | apply Hg in H; discriminate ].
Qed.

Lemma operator_lt_true (x y : bfloat16_t) :
  operator_lt x y = true <-> data x < data y.
Proof.
  unfold operator_lt.
  destruct (operator_spaceship_compare x y) as (Hl & He & Hg).
  destruct (operator_spaceship x y); split; intros H;
    solve [reflexivity | discriminate | lia
          | apply Hl; reflexivity
          | apply Hl in H; discriminate ].
Qed.

(** C4: equality and ordering compare the stored 16-bit patterns and
    nothing else.  So the values narrowed from [+0.0] and [-0.0] are
    unequal, two values with the same NaN pattern are equal, and two
    different NaN patterns are unequal and strictly ordered. *)
Theorem C4_comparison_is_on_stored_patterns (x y : bfloat16_t) :
  (operator_eq x y = true <-> bits x = bits y)
  /\ (operator_spaceship x y = equal <-> bits x = bits y)
  /\ (operator_spaceship x y = less <-> bits x < bits y)
  /\ (operator_spaceship x y = greater <-> bits y < bits x)
  /\ operator_eq (bfloat16_t_from_float binary32.lit_0_0)
                 (bfloat16_t_from_float binary32.lit_neg_0_0) = false
  /\ (is_nan x = true -> is_nan y = true -> bits x = bits y ->
      operator_eq x y = true /\ operator_spaceship x y = equal)
  /\ (is_nan x = true -> is_nan y = true -> bits x <> bits y ->
      operator_eq x y = false
      /\ (operator_lt x y = true \/ operator_gt x y = true)).
Proof.
  unfold bits.
  destruct (operator_spaceship_compare x y) as (Hl & He & Hg).
  split; [unfold operator_eq; apply Z.eqb_eq |].
  split; [exact He |]. split; [exact Hl |]. split; [exact Hg |].
  split; [reflexivity |].
  split.
  - intros _ _ E. split; [unfold operator_eq; now apply Z.eqb_eq | now apply He].
  - intros _ _ N. split; [unfold operator_eq; now apply Z.eqb_neq |].
    rewrite operator_lt_true, operator_gt_true. lia.
Qed.

Lemma C4_comparison_is_on_stored_patterns_witness :
  operator_eq nan (mk_bfloat16_t 0x7FC0) = false
  /\ (operator_lt nan (mk_bfloat16_t 0x7FC0) = true
      \/ operator_gt nan (mk_bfloat16_t 0x7FC0) = true).
Proof.
  destruct (C4_comparison_is_on_stored_patterns nan (mk_bfloat16_t 0x7FC0))
    as (_ & _ & _ & _ & _ & _ & H).
  apply H; [reflexivity | reflexivity | cbn; lia].
Defined.

(** C9: the ordering is that of unsigned 16-bit integers, so a value with
    the sign bit set is strictly greater than any value with the sign bit
    clear. *)
Theorem C9_sign_bit_set_orders_above (x y : bfloat16_t) :
  valid x -> valid y ->
  is_negative x = true -> is_negative y = false ->
  operator_spaceship x y = greater
  /\ operator_gt x y = true
  /\ operator_lt y x = true
  /\ operator_eq x y = false.
Proof.
  intros Hx Hy Nx Ny.
  apply (is_negative_true x Hx) in Nx.
  assert (data y < 2 ^ 15) as Py.
  { destruct (Z.lt_ge_cases (data y) (2 ^ 15)) as [L | G]; [exact L |].
    apply (is_negative_true y Hy) in G. congruence. }
  assert (data y < data x) as L by lia.
  split; [now apply operator_spaceship_compare |].
  split; [now apply operator_gt_true |].
  split; [now apply operator_lt_true |].
  unfold operator_eq. apply Z.eqb_neq. lia.
Qed.

Lemma C9_sign_bit_set_orders_above_witness :
  (operator_spaceship (bfloat16_t_from_float binary32.lit_neg_1_0)
                      (bfloat16_t_from_float binary32.lit_1_0) = greater
   /\ operator_gt (bfloat16_t_from_float binary32.lit_neg_1_0)
                  (bfloat16_t_from_float binary32.lit_1_0) = true
   /\ operator_lt (bfloat16_t_from_float binary32.lit_1_0)
                  (bfloat16_t_from_float binary32.lit_neg_1_0) = true
   /\ operator_eq (bfloat16_t_from_float binary32.lit_neg_1_0)
                  (bfloat16_t_from_float binary32.lit_1_0) = false)
  /\ (operator_spaceship negative_infinity infinity = greater
      /\ operator_gt negative_infinity infinity = true
      /\ operator_lt infinity negative_infinity = true
      /\ operator_eq negative_infinity infinity = false).
Proof.
  split; apply C9_sign_bit_set_orders_above;
    solve [ unfold valid, is_uint16; cbn; lia | reflexivity ].
Defined.

(** ** Classifier predicates *)

Lemma is_zero_true (x : bfloat16_t) :
  is_zero x = true <-> Z.land (data x) 0xFFFF7FFF = 0.
Proof. unfold is_zero. apply Z.eqb_eq. Qed.

(** A pattern accepted by [is_zero] has an all-zero exponent field. *)
Lemma is_zero_exponent_field (x : bfloat16_t) :
  is_zero x = true -> Z.land (data x) EXP_MASK = 0.
Proof.
  intros H. apply is_zero_true in H.
  change EXP_MASK with (Z.land 0xFFFF7FFF EXP_MASK).
  rewrite Z.land_assoc, H. reflexivity.
Qed.

(** C10: on every stored pattern [is_nan()] and [is_infinity()] are never
    both true, and where [is_zero()] is true both are false. *)
Theorem C10_classifiers_are_exclusive (x : bfloat16_t) :
  is_nan x && is_infinity x = false
  /\ (is_zero x = true -> is_nan x = false /\ is_infinity x = false).
Proof.
  split.
  - unfold is_nan, is_infinity.
    destruct (Z.land (data x) EXP_MASK =? EXP_MASK); [| reflexivity].
    destruct (Z.land (data x) MANT_MASK =? 0); reflexivity.
  - intros Hz. apply is_zero_exponent_field in Hz.
    unfold is_nan, is_infinity. rewrite Hz. split; reflexivity.
Qed.

Lemma C10_classifiers_are_exclusive_witness :
  is_nan (bfloat16_t_from_float binary32.lit_neg_0_0) = false
  /\ is_infinity (bfloat16_t_from_float binary32.lit_neg_0_0) = false.
Proof.
  apply (proj2 (C10_classifiers_are_exclusive
                  (bfloat16_t_from_float binary32.lit_neg_0_0))).
  reflexivity.
Defined.

(** ** The limits table *)

(** C6: the bit patterns of [std::numeric_limits<bfloat16_t>]. *)
Theorem C6_numeric_limits_patterns :
  bits numeric_limits.min = 0x0080
  /\ bits numeric_limits.lowest = 0xFF7F
  /\ bits numeric_limits.max = 0x7F7F
  /\ bits numeric_limits.epsilon = 0x3C00
  /\ bits numeric_limits.denorm_min = 0x0001
  /\ bits numeric_limits.infinity = 0x7F80
  /\ bits numeric_limits.quiet_NaN = 0x7F81
  /\ numeric_limits.round_error = bfloat16_t_from_float binary32.lit_0_5
  /\ bits numeric_limits.round_error = 0x3F00.
Proof. repeat split. Qed.

(** ** Arithmetic operators *)

(** The operators over the reference binary32 arithmetic, on the operands
    of the test suite: [3.5 + 1.5], [3.5 - 1.5], [3.5 * 2.0], [3.5 / 2.0]
    are exactly [5.0], [2.0], [7.0], [1.75]; infinity absorbs a finite
    operand, and a NaN operand gives a NaN. *)
Lemma operators_on_reference_arithmetic :
  let B := bfloat16_t_from_float in
  operator_add binary32.add (B binary32.lit_3_5) (B binary32.lit_1_5)
  = B binary32.lit_5_0
  /\ operator_sub binary32.sub (B binary32.lit_3_5) (B binary32.lit_1_5)
     = B binary32.lit_2_0
  /\ operator_mul binary32.mul (B binary32.lit_3_5) (B binary32.lit_2_0)
     = B binary32.lit_7_0
  /\ operator_div binary32.div (B binary32.lit_3_5) (B binary32.lit_2_0)
     = B binary32.lit_1_75
  /\ is_infinity (operator_add binary32.add (B binary32.lit_1_0) infinity) = true
  /\ is_infinity (operator_add binary32.add infinity infinity) = true
  /\ is_infinity (operator_mul binary32.mul (B binary32.lit_1_0) infinity) = true
  /\ is_nan (operator_add binary32.add (B binary32.lit_1_0) nan) = true
  /\ is_nan (operator_add binary32.add infinity nan) = true.
Proof. cbv zeta. repeat split; vm_compute; reflexivity. Qed.

(** ** The 16-bit invariant

    Every way the header offers to make a value yields a pattern that fits
    the [uint16_t] member. *)
Lemma set_bits_valid (x : bfloat16_t) (v : Z) : valid (set_bits x v).
Proof. unfold valid, set_bits. cbn [data]. apply to_uint16_range. Qed.

Lemma special_values_valid :
  valid bfloat16_t_default /\ valid zero /\ valid infinity
  /\ valid negative_infinity /\ valid nan.
Proof. unfold valid, is_uint16. cbn. lia. Qed.

Lemma abs_valid (x : bfloat16_t) : valid (abs x).
Proof. unfold abs. apply set_bits_valid. Qed.

Lemma operators_valid (op : float -> float -> float) (a b : bfloat16_t) :
  valid (operator_add_assign op a b) /\ valid (operator_add op a b)
  /\ valid (operator_sub_assign op a b) /\ valid (operator_sub op a b)
  /\ valid (operator_mul_assign op a b) /\ valid (operator_mul op a b)
  /\ valid (operator_div_assign op a b) /\ valid (operator_div op a b).
Proof. repeat split; apply from_float_valid. Qed.

(** * Further properties of the header *)

(** ** How narrowing rounds *)

Lemma operator_le_true (x y : bfloat16_t) :
  operator_le x y = true <-> data x <= data y.
Proof.
  unfold operator_le.
  destruct (operator_spaceship_compare x y) as (Hl & He & Hg).
  destruct (operator_spaceship x y) eqn:E; split; intros H;
    solve [ reflexivity | discriminate
          | apply Z.lt_le_incl, Hl; reflexivity
          | apply Z.eq_le_incl, He; reflexivity
          | assert (data y < data x) by (apply Hg; reflexivity); lia ].
Qed.

(** X1: the constructor rounds on the discarded lower half: when it is at
    most [0x8000] the upper half is kept as it is (so the exact midpoint
    goes down), and from [0x8001] on the upper half is incremented, modulo
    [2^16]. *)
Theorem from_float_rounding (f : float) :
  binary32.wf f ->
  (bit_cast_uint32 f mod 2 ^ 16 <= 0x8000 ->
   bits (bfloat16_t_from_float f) = bit_cast_uint32 f / 2 ^ 16)
  /\ (0x8001 <= bit_cast_uint32 f mod 2 ^ 16 ->
      bits (bfloat16_t_from_float f)
      = (bit_cast_uint32 f / 2 ^ 16 + 1) mod 2 ^ 16).
Proof.
  unfold binary32.wf, is_uint32, bits. intros Hwf.
  rewrite from_float_data. split; intros H; divmod_lia.
Qed.

Lemma from_float_rounding_witness :
  bits (bfloat16_t_from_float (bit_cast_float 0x3F808000)) = 0x3F80
  /\ bits (bfloat16_t_from_float (bit_cast_float 0x3F818000)) = 0x3F81
  /\ bits (bfloat16_t_from_float (bit_cast_float 0x3F808001)) = 0x3F81.
Proof.
  assert (forall w, (0 <=? w) && (w <? 2 ^ 32) = true ->
                    binary32.wf (bit_cast_float w)) as Hwf.
  { intros w Hw. apply andb_true_iff in Hw. destruct Hw as [H1 H2].
    split; [now apply Z.leb_le | now apply Z.ltb_lt]. }
  split; [| split].
  - apply (proj1 (from_float_rounding (bit_cast_float 0x3F808000)
                    (Hwf 0x3F808000 eq_refl))).
    apply Z.leb_le. reflexivity.
  - apply (proj1 (from_float_rounding (bit_cast_float 0x3F818000)
                    (Hwf 0x3F818000 eq_refl))).
    apply Z.leb_le. reflexivity.
  - apply (proj2 (from_float_rounding (bit_cast_float 0x3F808001)
                    (Hwf 0x3F808001 eq_refl))).
    apply Z.leb_le. reflexivity.
Defined.

(** X2: below the pattern at which the add wraps, narrowing and widening
    again moves the bit pattern by at most half of the step between two
    neighbouring 16-bit values. *)
Theorem round_trip_error_bound (f : float) :
  binary32.wf f ->
  bit_cast_uint32 f <= 0xFFFF8000 ->
  bit_cast_uint32 f - 0x8000
  <= bit_cast_uint32 (operator_float (bfloat16_t_from_float f))
  <= bit_cast_uint32 f + 0x7FFF.
Proof.
  unfold binary32.wf, is_uint32. intros Hwf Hmax.
  rewrite (operator_float_bits _ (from_float_valid f)), from_float_data.
  divmod_lia.
Qed.

Lemma round_trip_error_bound_witness :
  0x3F808000 - 0x8000
  <= bit_cast_uint32
       (operator_float (bfloat16_t_from_float (bit_cast_float 0x3F808000)))
  <= 0x3F808000 + 0x7FFF.
Proof.
  apply (round_trip_error_bound (bit_cast_float 0x3F808000)).
  - unfold binary32.wf, is_uint32. cbn. lia.
  - cbn. lia.
Defined.

(** X3: below the wrapping point narrowing is monotone: a larger bit
    pattern never narrows to a smaller stored pattern. *)
Theorem from_float_monotone (f g : float) :
  binary32.wf f ->
  bit_cast_uint32 f <= bit_cast_uint32 g ->
  bit_cast_uint32 g <= 0xFFFF8000 ->
  operator_le (bfloat16_t_from_float f) (bfloat16_t_from_float g) = true.
Proof.
  unfold binary32.wf, is_uint32. intros Hwf Hle Hmax.
  apply operator_le_true. rewrite !from_float_data. divmod_lia.
Qed.

Lemma from_float_monotone_witness :
  operator_le (bfloat16_t_from_float binary32.lit_1_0)
              (bfloat16_t_from_float binary32.lit_1_5) = true.
Proof.
  apply (from_float_monotone binary32.lit_1_0 binary32.lit_1_5).
  - unfold binary32.wf, is_uint32. cbn. lia.
  - cbn. lia.
  - cbn. lia.
Defined.

(** ** Finite and NaN inputs *)

Lemma signbit_true (f : float) :
  binary32.wf f ->
  (binary32.signbit f = true <-> 2 ^ 31 <= bit_cast_uint32 f).
Proof.
  unfold binary32.wf, is_uint32, binary32.signbit. intros Hwf.
  rewrite negb_true_iff, Z.eqb_neq, sign_field_eq.
  split; intros H; divmod_lia.
Qed.

(** X4: a finite float (exponent field below [0xFF]) never narrows to a
    NaN, and the narrowed value has the sign of the input. *)
Theorem from_float_finite_input (f : float) :
  binary32.wf f ->
  binary32.exponent_field f <> 0xFF ->
  is_nan (bfloat16_t_from_float f) = false
  /\ is_negative (bfloat16_t_from_float f) = binary32.signbit f.
Proof.
  intros Hwf He. rewrite exponent_field_eq in He.
  pose proof (signbit_true f Hwf) as Hs.
  pose proof (is_negative_true _ (from_float_valid f)) as Hn.
  pose proof (is_nan_true (bfloat16_t_from_float f)) as Hnan.
  rewrite from_float_data in Hn, Hnan.
  unfold binary32.wf, is_uint32 in Hwf.
  split.
  - apply not_true_is_false. intros C. apply Hnan in C.
    destruct C as [C1 C2]. divmod_lia.
  - apply eq_true_iff_eq. rewrite Hn, Hs. divmod_lia.
Qed.

Lemma from_float_finite_input_witness :
  is_nan (bfloat16_t_from_float binary32.flt_max) = false
  /\ is_negative (bfloat16_t_from_float binary32.flt_max)
     = binary32.signbit binary32.flt_max.
Proof.
  apply (from_float_finite_input binary32.flt_max).
  - unfold binary32.wf, is_uint32. cbn. lia.
  - cbn. lia.
Defined.

(** X5: a finite float narrows to an infinity exactly when its magnitude
    bits are at least [0x7F7F8001], that is, when it lies above the
    midpoint between the largest finite pattern and infinity. *)
Theorem from_float_overflow_threshold (f : float) :
  binary32.wf f ->
  binary32.exponent_field f <> 0xFF ->
  is_infinity (bfloat16_t_from_float f) = true
  <-> 0x7F7F8001 <= bit_cast_uint32 f mod 2 ^ 31.
Proof.
  intros Hwf He. rewrite exponent_field_eq in He.
  rewrite is_infinity_true, from_float_data.
  unfold binary32.wf, is_uint32 in Hwf.
  split; intros H; [destruct H as [H1 H2] | split]; divmod_lia.
Qed.

Lemma from_float_overflow_threshold_witness :
  is_infinity (bfloat16_t_from_float (bit_cast_float 0x7F7F8000)) = true
  <-> 0x7F7F8001 <= bit_cast_uint32 (bit_cast_float 0x7F7F8000) mod 2 ^ 31.
Proof.
  apply (from_float_overflow_threshold (bit_cast_float 0x7F7F8000)).
  - unfold binary32.wf, is_uint32. cbn. lia.
  - cbn. lia.
Defined.

(** X6: a NaN float narrows to a NaN exactly when its 23-bit mantissa lies
    between [0x8001] and [0x7F8000]. *)
Theorem from_float_nan_input (f : float) :
  binary32.wf f ->
  binary32.isnan f = true ->
  is_nan (bfloat16_t_from_float f) = true
  <-> 0x8001 <= binary32.mantissa_field f <= 0x7F8000.
Proof. exact (from_float_nan_iff f). Qed.

Lemma from_float_nan_input_witness :
  is_nan (bfloat16_t_from_float (bit_cast_float 0xFFC00000)) = true
  <-> 0x8001 <= binary32.mantissa_field (bit_cast_float 0xFFC00000) <= 0x7F8000.
Proof.
  apply (from_float_nan_input (bit_cast_float 0xFFC00000)).
  - unfold binary32.wf, is_uint32. cbn. lia.
  - reflexivity.
Defined.

(** ** Widening *)

(** X7: narrowing is idempotent through the float type: for any float,
    widening the narrowed value and narrowing again changes nothing. *)
Theorem from_float_idempotent (f : float) :
  bfloat16_t_from_float (operator_float (bfloat16_t_from_float f))
  = bfloat16_t_from_float f.
Proof. apply round_trip_widened, from_float_valid. Qed.

(** X8: the classifier predicates on a stored pattern agree with the
    binary32 classification of the widened float. *)
Theorem classifiers_agree_with_widened (x : bfloat16_t) :
  valid x ->
  is_nan x = binary32.isnan (operator_float x)
  /\ is_infinity x = binary32.isinf (operator_float x)
  /\ is_negative x = binary32.signbit (operator_float x)
  /\ is_zero x
     = (binary32.exponent_field (operator_float x) =? 0)
       && (binary32.mantissa_field (operator_float x) =? 0).
Proof.
  intros Hx.
  pose proof (operator_float_bits x Hx) as Hb.
  pose proof (operator_float_wf x) as Hwf.
  unfold valid, is_uint16 in Hx.
  repeat split; apply eq_true_iff_eq.
  - rewrite is_nan_true, isnan_true, Hb.
    split; intros [H1 H2]; split; divmod_lia.
  - rewrite is_infinity_true, isinf_true, Hb.
    split; intros [H1 H2]; split; divmod_lia.
  - rewrite (is_negative_true x Hx), (signbit_true _ Hwf), Hb. divmod_lia.
  - rewrite is_zero_true, andb_true_iff, !Z.eqb_eq.
    rewrite exponent_field_eq, mantissa_field_eq, Hb.
    change 0xFFFF7FFF with (Z.lor (Z.ones 15) (Z.shiftl (Z.ones 16) 16)).
    rewrite Z.land_lor_distr_r, Z.lor_eq_0_iff, Z.land_ones, land_field by lia.
    rewrite Z.shiftl_mul_pow2, Z.shiftr_div_pow2 by lia.
    split; intros [H1 H2]; split; divmod_lia.
Qed.

Lemma classifiers_agree_with_widened_witness :
  is_nan nan = binary32.isnan (operator_float nan)
  /\ is_infinity nan = binary32.isinf (operator_float nan)
  /\ is_negative nan = binary32.signbit (operator_float nan)
  /\ is_zero nan
     = (binary32.exponent_field (operator_float nan) =? 0)
       && (binary32.mantissa_field (operator_float nan) =? 0).
Proof.
  apply (classifiers_agree_with_widened nan).
  unfold valid, is_uint16. cbn. lia.
Defined.

(** ** Zero, infinity and the fields of a pattern *)

(** Masking a 16-bit pattern with [~SIGN_MASK] keeps its low 15 bits. *)
Lemma land_not_SIGN_MASK (d : Z) :
  is_uint16 d -> Z.land d (to_uint32 (Z.lnot SIGN_MASK)) = d mod 2 ^ 15.
Proof.
  unfold is_uint16. intros Hd.
  change (to_uint32 (Z.lnot SIGN_MASK))
    with (Z.lor (Z.ones 15) (Z.shiftl (Z.ones 16) 16)).
  rewrite Z.land_lor_distr_r, Z.land_ones, land_field by lia.
  rewrite Z.shiftl_mul_pow2, Z.shiftr_div_pow2 by lia.
  replace (d / 2 ^ 16) with 0 by divmod_lia.
  rewrite Z.mod_0_l by (pow2_numerals; lia).
  apply Z.lor_0_r.
Qed.

Lemma bfloat16_t_eq (x y : bfloat16_t) : data x = data y -> x = y.
Proof. destruct x, y. cbn. intros ->. reflexivity. Qed.

(** X9: among 16-bit patterns, [is_zero] accepts exactly [zero()] and its
    negation, and [is_infinity] accepts exactly [infinity()] and
    [negative_infinity()]. *)
Theorem zero_and_infinity_patterns (x : bfloat16_t) :
  valid x ->
  (is_zero x = true <-> x = zero \/ x = operator_neg zero)
  /\ (is_infinity x = true <-> x = infinity \/ x = negative_infinity).
Proof.
  intros Hx. split.
  - unfold is_zero. rewrite Z.eqb_eq, (land_not_SIGN_MASK _ Hx).
    unfold valid, is_uint16 in Hx. split.
    + intros H.
      assert (data x = 0 \/ data x = 0x8000) as [E | E] by divmod_lia;
        [left | right]; apply bfloat16_t_eq; exact E.
    + intros [-> | ->]; reflexivity.
  - rewrite is_infinity_true. unfold valid, is_uint16 in Hx. split.
    + intros [H1 H2].
      assert (data x = 0x7F80 \/ data x = 0xFF80) as [E | E] by divmod_lia;
        [left | right]; apply bfloat16_t_eq; exact E.
    + intros [-> | ->]; split; reflexivity.
Qed.

Lemma zero_and_infinity_patterns_witness :
  (is_zero negative_infinity = true
   <-> negative_infinity = zero \/ negative_infinity = operator_neg zero)
  /\ (is_infinity negative_infinity = true
      <-> negative_infinity = infinity \/ negative_infinity = negative_infinity).
Proof.
  apply (zero_and_infinity_patterns negative_infinity).
  unfold valid, is_uint16. cbn. lia.
Defined.

(** A small signed number survives the conversion to [uint32_t] followed
    by the cast to [int16_t]. *)
Lemma to_int16_to_uint32 (z : Z) :
  - 2 ^ 15 <= z < 2 ^ 15 -> to_int16 (to_uint32 z) = z.
Proof.
  intros Hz. unfold to_int16, to_uint32.
  rewrite <- Z.add_mod_idemp_l by (pow2_numerals; lia).
  rewrite Z.mod_mod_divide by (exists (2 ^ 16); reflexivity).
  rewrite Z.add_mod_idemp_l by (pow2_numerals; lia).
  rewrite Z.mod_small by (pow2_numerals; lia). lia.
Qed.

Lemma is_zero_not_special (x : bfloat16_t) :
  is_zero x = true -> is_nan x = false /\ is_infinity x = false.
Proof.
  intros Hz. apply is_zero_exponent_field in Hz.
  unfold is_nan, is_infinity. rewrite Hz. split; reflexivity.
Qed.

(** On a finite non-zero pattern [get_exponent] is the exponent field
    minus the bias. *)
Lemma get_exponent_finite (x : bfloat16_t) :
  is_zero x = false -> is_nan x = false -> is_infinity x = false ->
  get_exponent x = (data x / 2 ^ 7) mod 2 ^ 8 - EXP_BIAS
  /\ - 127 <= get_exponent x <= 127.
Proof.
  intros Hz Hn Hi. unfold get_exponent. rewrite Hz, Hn, Hi. cbn [orb].
  assert ((data x / 2 ^ 7) mod 2 ^ 8 <> 255) as Hfin.
  { intros E. destruct (Z.eq_dec (data x mod 2 ^ 7) 0) as [M | M].
    - assert (is_infinity x = true) by (apply is_infinity_true; now split).
      congruence.
    - assert (is_nan x = true) by (apply is_nan_true; now split).
      congruence. }
  rewrite land_EXP_MASK. unfold EXP_SHIFT, EXP_BIAS.
  rewrite Z.shiftr_div_pow2, Z.div_mul by (pow2_numerals; lia).
  pose proof (Z.mod_pos_bound (data x / 2 ^ 7) (2 ^ 8) eq_refl) as He.
  rewrite to_int16_to_uint32 by (pow2_numerals; lia).
  pow2_numerals. split; lia.
Qed.

(** X10: [get_exponent] returns [0] on a zero, the sentinel [INT16_MAX] on
    a NaN or an infinity, and otherwise the exponent field minus the bias,
    a number between [-127] and [127]: the passage through [uint32_t] and
    [int16_t] loses nothing.  A subnormal pattern reports [-127]. *)
Theorem get_exponent_cases (x : bfloat16_t) :
  valid x ->
  (is_zero x = true -> get_exponent x = 0)
  /\ (is_nan x = true \/ is_infinity x = true -> get_exponent x = INT16_MAX)
  /\ (is_zero x = false -> is_nan x = false -> is_infinity x = false ->
      get_exponent x = (data x / 2 ^ 7) mod 2 ^ 8 - EXP_BIAS
      /\ - 127 <= get_exponent x <= 127
      /\ ((data x / 2 ^ 7) mod 2 ^ 8 = 0 -> get_exponent x = - 127)).
Proof.
  intros Hx. split; [| split].
  - intros Hz. unfold get_exponent. now rewrite Hz.
  - intros Hs. unfold get_exponent.
    destruct (is_zero x) eqn:Hz.
    + destruct (is_zero_not_special x Hz) as [Hn Hi]. rewrite Hn, Hi in Hs.
      destruct Hs; discriminate.
    + destruct Hs as [-> | ->]; [reflexivity | now rewrite orb_true_r].
  - intros Hz Hn Hi.
    destruct (get_exponent_finite x Hz Hn Hi) as [E B].
    split; [exact E |]. split; [exact B |]. intros E0. rewrite E, E0.
    reflexivity.
Qed.

Lemma get_exponent_cases_witness :
  (is_zero (mk_bfloat16_t 0x0001) = true -> get_exponent (mk_bfloat16_t 0x0001) = 0)
  /\ (is_nan (mk_bfloat16_t 0x0001) = true \/ is_infinity (mk_bfloat16_t 0x0001) = true ->
      get_exponent (mk_bfloat16_t 0x0001) = INT16_MAX)
  /\ (is_zero (mk_bfloat16_t 0x0001) = false ->
      is_nan (mk_bfloat16_t 0x0001) = false ->
      is_infinity (mk_bfloat16_t 0x0001) = false ->
      get_exponent (mk_bfloat16_t 0x0001)
      = (data (mk_bfloat16_t 0x0001) / 2 ^ 7) mod 2 ^ 8 - EXP_BIAS
      /\ - 127 <= get_exponent (mk_bfloat16_t 0x0001) <= 127
      /\ ((data (mk_bfloat16_t 0x0001) / 2 ^ 7) mod 2 ^ 8 = 0 ->
          get_exponent (mk_bfloat16_t 0x0001) = - 127)).
Proof.
  apply (get_exponent_cases (mk_bfloat16_t 0x0001)).
  unfold valid, is_uint16. cbn. lia.
Defined.

(** X11: sign, exponent field and mantissa determine the pattern: a
    16-bit pattern is the sum of its sign bit, its masked exponent field
    and [get_mantissa], and [get_mantissa] is below [2^7]. *)
Theorem pattern_from_fields (x : bfloat16_t) :
  valid x ->
  bits x
  = (if get_sign x then SIGN_MASK else 0)
    + Z.land (bits x) EXP_MASK + get_mantissa x
  /\ 0 <= get_mantissa x < 2 ^ 7.
Proof.
  intros Hx. unfold bits, get_sign, get_mantissa.
  rewrite land_EXP_MASK, land_MANT_MASK.
  pose proof (Z.mod_pos_bound (data x) (2 ^ 7) eq_refl) as Hm.
  rewrite to_uint16_small by (unfold is_uint16; pow2_numerals; lia).
  split; [| exact Hm].
  pose proof (is_negative_true x Hx) as Hn.
  unfold valid, is_uint16 in Hx. unfold SIGN_MASK.
  destruct (is_negative x).
  - assert (2 ^ 15 <= data x) by now apply Hn. divmod_lia.
  - assert (~ 2 ^ 15 <= data x) by (intros C; apply Hn in C; discriminate).
    divmod_lia.
Qed.

Lemma pattern_from_fields_witness :
  bits negative_infinity
  = (if get_sign negative_infinity then SIGN_MASK else 0)
    + Z.land (bits negative_infinity) EXP_MASK + get_mantissa negative_infinity
  /\ 0 <= get_mantissa negative_infinity < 2 ^ 7.
Proof.
  apply (pattern_from_fields negative_infinity).
  unfold valid, is_uint16. cbn. lia.
Defined.

(** ** Absolute value *)

Lemma abs_data (x : bfloat16_t) :
  valid x -> data (abs x) = data x mod 2 ^ 15.
Proof.
  intros Hx. unfold abs, set_bits, bits, get_sign_mask. cbn [data].
  rewrite (land_not_SIGN_MASK _ Hx).
  apply to_uint16_small. unfold is_uint16. divmod_lia.
Qed.

(** X12: [abs] keeps the low 15 bits of the pattern and clears the sign
    bit; it is idempotent, undoes a negation, is the identity on a value
    whose sign bit is clear and is negation on one whose sign bit is
    set. *)
Theorem abs_clears_sign_bit (x : bfloat16_t) :
  valid x ->
  bits (abs x) = bits x mod 2 ^ 15
  /\ is_negative (abs x) = false
  /\ abs (abs x) = abs x
  /\ abs (operator_neg x) = abs x
  /\ abs x = (if is_negative x then operator_neg x else x).
Proof.
  intros Hx. unfold bits.
  pose proof (abs_data x Hx) as Ha.
  pose proof (abs_valid x) as Hv.
  pose proof (is_negative_true x Hx) as Hn.
  destruct (operator_neg_data x Hx) as [Hneg _].
  rewrite lxor_SIGN_MASK in Hneg.
  split; [exact Ha |]. split; [| split; [| split]].
  - apply not_true_is_false. intros C.
    apply (is_negative_true _ Hv) in C. rewrite Ha in C. divmod_lia.
  - apply bfloat16_t_eq. rewrite (abs_data _ Hv), Ha. divmod_lia.
  - apply bfloat16_t_eq.
    rewrite (abs_data _ (operator_neg_valid x)), Ha, Hneg.
    unfold valid, is_uint16 in Hx. divmod_lia.
  - apply bfloat16_t_eq. rewrite Ha.
    unfold valid, is_uint16 in Hx.
    destruct (is_negative x).
    + assert (2 ^ 15 <= data x) by now apply Hn. rewrite Hneg. divmod_lia.
    + assert (~ 2 ^ 15 <= data x) by (intros C; apply Hn in C; discriminate).
      divmod_lia.
Qed.

Lemma abs_clears_sign_bit_witness :
  bits (abs negative_infinity) = bits negative_infinity mod 2 ^ 15
  /\ is_negative (abs negative_infinity) = false
  /\ abs (abs negative_infinity) = abs negative_infinity
  /\ abs (operator_neg negative_infinity) = abs negative_infinity
  /\ abs negative_infinity
     = (if is_negative negative_infinity
        then operator_neg negative_infinity else negative_infinity).
Proof.
  apply (abs_clears_sign_bit negative_infinity).
  unfold valid, is_uint16. cbn. lia.
Defined.

(** X13: [abs] and unary minus change nothing but the sign: the class of
    the value (zero, NaN, infinity), its mantissa and its reported
    exponent are the same before and after. *)
Theorem sign_operations_keep_class (x : bfloat16_t) :
  valid x ->
  (is_zero (abs x) = is_zero x /\ is_nan (abs x) = is_nan x
   /\ is_infinity (abs x) = is_infinity x
   /\ get_mantissa (abs x) = get_mantissa x
   /\ get_exponent (abs x) = get_exponent x)
  /\ (is_zero (operator_neg x) = is_zero x
      /\ get_exponent (operator_neg x) = get_exponent x).
Proof.
  intros Hx.
  pose proof (abs_data x Hx) as Ha.
  destruct (operator_neg_fields x Hx) as (He & Hm & _).
  destruct (operator_neg_data x Hx) as [Hneg _].
  rewrite lxor_SIGN_MASK in Hneg.
  assert (Z.land (data (abs x)) EXP_MASK = Z.land (data x) EXP_MASK) as Hae
      by (rewrite !land_EXP_MASK, Ha; divmod_lia).
  assert (Z.land (data (abs x)) MANT_MASK = Z.land (data x) MANT_MASK) as Ham
      by (rewrite !land_MANT_MASK, Ha; divmod_lia).
  assert (is_zero (abs x) = is_zero x) as Haz.
  { unfold is_zero.
    rewrite (land_not_SIGN_MASK _ (abs_valid x)), (land_not_SIGN_MASK _ Hx), Ha.
    f_equal. divmod_lia. }
  assert (is_zero (operator_neg x) = is_zero x) as Hnz.
  { unfold is_zero.
    rewrite (land_not_SIGN_MASK _ (operator_neg_valid x)),
      (land_not_SIGN_MASK _ Hx), Hneg.
    unfold valid, is_uint16 in Hx. f_equal. divmod_lia. }
  assert (is_nan (abs x) = is_nan x) as Han
      by (unfold is_nan; now rewrite Hae, Ham).
  assert (is_infinity (abs x) = is_infinity x) as Hai
      by (unfold is_infinity; now rewrite Hae, Ham).
  assert (is_nan (operator_neg x) = is_nan x) as Hnn
      by (unfold is_nan; now rewrite He, Hm).
  assert (is_infinity (operator_neg x) = is_infinity x) as Hni
      by (unfold is_infinity; now rewrite He, Hm).
  repeat split; try assumption.
  - unfold get_mantissa. now rewrite Ham.
  - unfold get_exponent. now rewrite Haz, Han, Hai, Hae.
  - unfold get_exponent. now rewrite Hnz, Hnn, Hni, He.
Qed.

Lemma sign_operations_keep_class_witness :
  (is_zero (abs nan) = is_zero nan /\ is_nan (abs nan) = is_nan nan
   /\ is_infinity (abs nan) = is_infinity nan
   /\ get_mantissa (abs nan) = get_mantissa nan
   /\ get_exponent (abs nan) = get_exponent nan)
  /\ (is_zero (operator_neg nan) = is_zero nan
      /\ get_exponent (operator_neg nan) = get_exponent nan).
Proof.
  apply (sign_operations_keep_class nan).
  unfold valid, is_uint16. cbn. lia.
Defined.

(** ** The widened value *)

(** The binary32 fields of a widened pattern. *)
Lemma widened_fields (x : bfloat16_t) :
  valid x ->
  binary32.signbit (operator_float x) = is_negative x
  /\ binary32.exponent_field (operator_float x) = (data x / 2 ^ 7) mod 2 ^ 8
  /\ binary32.mantissa_field (operator_float x) = data x mod 2 ^ 7 * 2 ^ 16.
Proof.
  intros Hx.
  pose proof (operator_float_bits x Hx) as Hb.
  pose proof (operator_float_wf x) as Hwf.
  rewrite exponent_field_eq, mantissa_field_eq, Hb.
  split; [| unfold valid, is_uint16 in Hx; split; divmod_lia].
  apply eq_true_iff_eq.
  rewrite (is_negative_true x Hx), (signbit_true _ Hwf), Hb.
  unfold valid, is_uint16 in Hx. divmod_lia.
Qed.

Lemma decode_sign_operations (x : bfloat16_t) :
  valid x ->
  binary32.decode (operator_float (operator_neg x))
  = SFopp (binary32.decode (operator_float x))
  /\ binary32.decode (operator_float (abs x))
     = SFabs (binary32.decode (operator_float x)).
Proof.
  intros Hx.
  destruct (widened_fields x Hx) as (Hs & He & Hm).
  destruct (widened_fields _ (operator_neg_valid x)) as (Hns & Hne & Hnm).
  destruct (widened_fields _ (abs_valid x)) as (Has & Hae & Ham).
  destruct (operator_neg_fields x Hx) as (Fe & Fm & Fs).
  rewrite !land_EXP_MASK in Fe. rewrite !land_MANT_MASK in Fm.
  assert (is_negative (operator_neg x) = negb (is_negative x)) as Fn.
  { apply eq_true_iff_eq. rewrite negb_true_iff, <- not_true_iff_false.
    rewrite (is_negative_true _ (operator_neg_valid x)), (is_negative_true _ Hx).
    destruct (operator_neg_data x Hx) as [-> _]. rewrite lxor_SIGN_MASK.
    unfold valid, is_uint16 in Hx. divmod_lia. }
  assert (is_negative (abs x) = false) as Fa.
  { apply not_true_is_false. intros C.
    apply (is_negative_true _ (abs_valid x)) in C.
    rewrite (abs_data x Hx) in C. divmod_lia. }
  pose proof (abs_data x Hx) as Ha.
  assert ((data (abs x) / 2 ^ 7) mod 2 ^ 8 = (data x / 2 ^ 7) mod 2 ^ 8) as Ge
      by (rewrite Ha; divmod_lia).
  assert (data (abs x) mod 2 ^ 7 = data x mod 2 ^ 7) as Gm
      by (rewrite Ha; divmod_lia).
  split; unfold binary32.decode.
  - rewrite Hns, Hne, Hnm, Hs, He, Hm, Fn.
    assert ((data (operator_neg x) / 2 ^ 7) mod 2 ^ 8
            = (data x / 2 ^ 7) mod 2 ^ 8) as -> by divmod_lia.
    rewrite Fm.
    destruct (_ =? 0); [destruct (_ * _); reflexivity |].
    destruct (_ =? 0xFF); [destruct (_ =? 0); reflexivity |].
    destruct (_ + _); reflexivity.
  - rewrite Has, Hae, Ham, Hs, He, Hm, Fa, Ge, Gm.
    destruct (_ =? 0); [destruct (_ * _); reflexivity |].
    destruct (_ =? 0xFF); [destruct (_ =? 0); reflexivity |].
    destruct (_ + _); reflexivity.
Qed.

(** X14: on the decoded binary32 value of the widened pattern, unary
    minus is IEEE negation and [abs] is IEEE absolute value. *)
Theorem sign_operations_on_widened (x : bfloat16_t) :
  valid x ->
  binary32.decode (operator_float (operator_neg x))
  = SFopp (binary32.decode (operator_float x))
  /\ binary32.decode (operator_float (abs x))
     = SFabs (binary32.decode (operator_float x)).
Proof. exact (decode_sign_operations x). Qed.

Lemma sign_operations_on_widened_witness :
  binary32.decode (operator_float (operator_neg infinity))
  = SFopp (binary32.decode (operator_float infinity))
  /\ binary32.decode (operator_float (abs infinity))
     = SFabs (binary32.decode (operator_float infinity)).
Proof.
  apply (sign_operations_on_widened infinity).
  unfold valid, is_uint16. cbn. lia.
Defined.

(** ** The limits and the classifiers *)

(** X15: a 16-bit pattern is finite (neither NaN nor infinity) exactly
    when its absolute value is at most [numeric_limits::max()] in the
    type's own ordering. *)
Theorem finite_iff_abs_le_max (x : bfloat16_t) :
  valid x ->
  is_nan x = false /\ is_infinity x = false
  <-> operator_le (abs x) numeric_limits.max = true.
Proof.
  intros Hx. rewrite operator_le_true, (abs_data x Hx).
  change (data numeric_limits.max) with 0x7F7F.
  rewrite <- !not_true_iff_false, is_nan_true, is_infinity_true.
  unfold valid, is_uint16 in Hx.
  split.
  - intros [Hn Hi].
    destruct (Z.eq_dec ((data x / 2 ^ 7) mod 2 ^ 8) 255) as [E | E];
      [| divmod_lia].
    destruct (Z.eq_dec (data x mod 2 ^ 7) 0) as [M | M];
      [exfalso; apply Hi | exfalso; apply Hn]; now split.
  - intros H. split; intros [H1 H2]; divmod_lia.
Qed.

Lemma finite_iff_abs_le_max_witness :
  is_nan numeric_limits.lowest = false
  /\ is_infinity numeric_limits.lowest = false
  <-> operator_le (abs numeric_limits.lowest) numeric_limits.max = true.
Proof.
  apply (finite_iff_abs_le_max numeric_limits.lowest).
  unfold valid, is_uint16. cbn. lia.
Defined.

(** ** Pattern order and numeric order *)

(** The decoded value of a widened pattern that is not a NaN, by the low
    15 bits [d] of the pattern: zero, infinity, or a finite number whose
    exponent and mantissa are read off [d]. *)
Lemma decode_widened (x : bfloat16_t) :
  valid x ->
  is_nan x = false ->
  let d := data x mod 2 ^ 15 in
  let s := is_negative x in
  (d = 0 /\ binary32.decode (operator_float x) = S754_zero s)
  \/ (d = 0x7F80 /\ binary32.decode (operator_float x) = S754_infinity s)
  \/ (0 < d < 0x7F80
      /\ exists m e,
          binary32.decode (operator_float x) = S754_finite s m e
          /\ e = Z.max (d / 2 ^ 7) 1 - 150
          /\ Zpos m = d mod 2 ^ 7 * 2 ^ 16
                      + (if d / 2 ^ 7 =? 0 then 0 else 2 ^ 23)).
Proof.
  intros Hx Hnan d s.
  destruct (widened_fields x Hx) as (Hs & He & Hm).
  apply not_true_iff_false in Hnan. rewrite is_nan_true in Hnan.
  assert ((data x / 2 ^ 7) mod 2 ^ 8 = d / 2 ^ 7) as Ed
      by (subst d; divmod_lia).
  assert (data x mod 2 ^ 7 = d mod 2 ^ 7) as Md by (subst d; divmod_lia).
  assert (0 <= d < 2 ^ 15) as Hd by (subst d; divmod_lia).
  unfold binary32.decode. rewrite Hs, He, Hm. fold s. rewrite Ed, Md.
  rewrite Ed, Md in Hnan.
  destruct (Z.eqb_spec (d / 2 ^ 7) 0) as [E0 | E0].
  - destruct (d mod 2 ^ 7 * 2 ^ 16) as [| p | p] eqn:Em.
    + left. split; [divmod_lia | reflexivity].
    + right. right. split; [divmod_lia |].
      exists p, (-149). split; [reflexivity |]. split; lia.
    + exfalso. divmod_lia.
  - destruct (Z.eqb_spec (d / 2 ^ 7) 0xFF) as [E1 | E1].
    + destruct (Z.eqb_spec (d mod 2 ^ 7 * 2 ^ 16) 0) as [M0 | M0].
      * right. left. split; [divmod_lia | reflexivity].
      * exfalso. apply Hnan. split; [exact E1 | lia].
    + destruct (d mod 2 ^ 7 * 2 ^ 16 + 2 ^ 23) as [| p | p] eqn:Em.
      * exfalso. divmod_lia.
      * right. right. split; [divmod_lia |].
        exists p, (d / 2 ^ 7 - 150). split; [reflexivity |].
        split; [divmod_lia | lia].
      * exfalso. divmod_lia.
Qed.

(** Exponent first, mantissa second: on finite non-zero patterns this is
    the order of the patterns themselves. *)
Lemma fields_compare (c d : Z) (m n : positive) :
  0 < c < 0x7F80 -> 0 < d < 0x7F80 ->
  Zpos m = c mod 2 ^ 7 * 2 ^ 16 + (if c / 2 ^ 7 =? 0 then 0 else 2 ^ 23) ->
  Zpos n = d mod 2 ^ 7 * 2 ^ 16 + (if d / 2 ^ 7 =? 0 then 0 else 2 ^ 23) ->
  match Z.max (c / 2 ^ 7) 1 - 150 ?= Z.max (d / 2 ^ 7) 1 - 150 with
  | Lt => Lt
  | Gt => Gt
  | Eq => Pos.compare_cont Eq m n
  end = (c ?= d).
Proof.
  intros Hc Hd Hm Hn.
  change (Pos.compare_cont Eq m n) with (Zpos m ?= Zpos n).
  rewrite Hm, Hn. clear Hm Hn.
  destruct (Z.eqb_spec (c / 2 ^ 7) 0) as [C0 | C0];
    destruct (Z.eqb_spec (d / 2 ^ 7) 0) as [D0 | D0];
    destruct (Z.compare_spec (Z.max (c / 2 ^ 7) 1 - 150)
                             (Z.max (d / 2 ^ 7) 1 - 150)) as [E | E | E];
    symmetry;
    first [ apply Z.compare_lt_iff; divmod_lia
          | apply Z.compare_gt_iff; divmod_lia
          | idtac ];
    match goal with
    | |- _ = (?a ?= ?b) =>
        destruct (Z.compare_spec a b) as [F | F | F]
    end;
    first [ apply Z.compare_eq_iff | apply Z.compare_lt_iff
          | apply Z.compare_gt_iff ];
    divmod_lia.
Qed.

Lemma low_bits_compare (x y : bfloat16_t) :
  valid x -> valid y ->
  is_negative x = is_negative y ->
  (data x mod 2 ^ 15 ?= data y mod 2 ^ 15) = (data x ?= data y).
Proof.
  intros Hx Hy Hs.
  pose proof (is_negative_true x Hx) as Nx.
  pose proof (is_negative_true y Hy) as Ny.
  rewrite Hs in Nx. unfold valid, is_uint16 in Hx, Hy.
  assert (data x / 2 ^ 15 = data y / 2 ^ 15) as Hq.
  { destruct (is_negative y).
    - assert (2 ^ 15 <= data x) by now apply Nx.
      assert (2 ^ 15 <= data y) by now apply Ny. divmod_lia.
    - assert (~ 2 ^ 15 <= data x) by (intros C; apply Nx in C; discriminate).
      assert (~ 2 ^ 15 <= data y) by (intros C; apply Ny in C; discriminate).
      divmod_lia. }
  destruct (Z.compare_spec (data x) (data y)) as [F | F | F];
    first [ apply Z.compare_eq_iff | apply Z.compare_lt_iff
          | apply Z.compare_gt_iff ];
    divmod_lia.
Qed.

(** IEEE comparison of two widened patterns of the same sign, neither a
    NaN: the comparison of the patterns, reversed when the sign bit is
    set. *)
Lemma same_sign_compare (x y : bfloat16_t) :
  valid x -> valid y ->
  is_nan x = false -> is_nan y = false ->
  is_negative x = is_negative y ->
  SFcompare (binary32.decode (operator_float x))
            (binary32.decode (operator_float y))
  = Some (if is_negative x then data y ?= data x else data x ?= data y).
Proof.
  intros Hx Hy Nx Ny Hs.
  rewrite <- (low_bits_compare x y Hx Hy Hs).
  rewrite <- (low_bits_compare y x Hy Hx (eq_sym Hs)).
  pose proof (decode_widened x Hx Nx) as Dx.
  pose proof (decode_widened y Hy Ny) as Dy.
  cbv zeta in Dx, Dy. rewrite <- Hs in Dy.
  destruct Dx as [[Zx ->] | [[Ix ->] | [Fx (m & e & -> & -> & Mx)]]];
    destruct Dy as [[Zy ->] | [[Iy ->] | [Fy (n & e' & -> & -> & My)]]];
    cbn [SFcompare];
    try (rewrite ?Zx, ?Ix, ?Zy, ?Iy; destruct (is_negative x);
         f_equal; symmetry;
         first [ reflexivity
               | apply Z.compare_lt_iff; lia
               | apply Z.compare_gt_iff; lia ]).
  destruct (is_negative x); f_equal.
  - rewrite <- (fields_compare _ _ n m Fy Fx My Mx).
    rewrite (Z.compare_antisym (Z.max (data y mod 2 ^ 15 / 2 ^ 7) 1 - 150)).
    destruct (_ ?= _); cbn [CompOpp]; try reflexivity.
    change (CompOpp (m ?= n)%positive = (n ?= m)%positive).
    apply eq_sym, Pos.compare_antisym.
  - apply (fields_compare _ _ m n Fx Fy Mx My).
Qed.

(** X16: on values whose sign bit is clear and that are not NaN, the
    type's comparison operators decide the numeric IEEE order of the
    widened floats. *)
Theorem order_is_numeric_on_nonnegative (x y : bfloat16_t) :
  valid x -> valid y ->
  is_nan x = false -> is_nan y = false ->
  is_negative x = false -> is_negative y = false ->
  operator_lt x y = SFltb (binary32.decode (operator_float x))
                          (binary32.decode (operator_float y))
  /\ operator_le x y = SFleb (binary32.decode (operator_float x))
                             (binary32.decode (operator_float y))
  /\ operator_eq x y = SFeqb (binary32.decode (operator_float x))
                             (binary32.decode (operator_float y)).
Proof.
  intros Hx Hy Nx Ny Sx Sy.
  pose proof (same_sign_compare x y Hx Hy Nx Ny (eq_trans Sx (eq_sym Sy))) as H.
  rewrite Sx in H.
  unfold SFltb, SFleb, SFeqb, operator_lt, operator_le, operator_eq,
    operator_spaceship.
  rewrite H, Z.eqb_compare.
  destruct (data x ?= data y); repeat split.
Qed.

Lemma order_is_numeric_on_nonnegative_witness :
  operator_lt numeric_limits.denorm_min numeric_limits.min
  = SFltb (binary32.decode (operator_float numeric_limits.denorm_min))
          (binary32.decode (operator_float numeric_limits.min))
  /\ operator_le numeric_limits.denorm_min numeric_limits.min
     = SFleb (binary32.decode (operator_float numeric_limits.denorm_min))
             (binary32.decode (operator_float numeric_limits.min))
  /\ operator_eq numeric_limits.denorm_min numeric_limits.min
     = SFeqb (binary32.decode (operator_float numeric_limits.denorm_min))
             (binary32.decode (operator_float numeric_limits.min)).
Proof.
  apply (order_is_numeric_on_nonnegative
           numeric_limits.denorm_min numeric_limits.min);
    solve [ unfold valid, is_uint16; cbn; lia | reflexivity ].
Defined.

(** X17: on two values whose sign bit is set and that are not NaN, the
    pattern order is the reverse of the numeric order: [x < y] holds
    exactly when the widened [y] is numerically below the widened [x]. *)
Theorem order_is_reversed_on_negative (x y : bfloat16_t) :
  valid x -> valid y ->
  is_nan x = false -> is_nan y = false ->
  is_negative x = true -> is_negative y = true ->
  operator_lt x y = SFltb (binary32.decode (operator_float y))
                          (binary32.decode (operator_float x))
  /\ operator_eq x y = SFeqb (binary32.decode (operator_float x))
                             (binary32.decode (operator_float y)).
Proof.
  intros Hx Hy Nx Ny Sx Sy.
  pose proof (same_sign_compare y x Hy Hx Ny Nx (eq_trans Sy (eq_sym Sx))) as H.
  pose proof (same_sign_compare x y Hx Hy Nx Ny (eq_trans Sx (eq_sym Sy))) as H'.
  rewrite Sy in H. rewrite Sx in H'.
  unfold SFltb, SFeqb, operator_lt, operator_eq, operator_spaceship.
  rewrite H, H', Z.eqb_compare, (Z.compare_antisym (data x) (data y)).
  destruct (data x ?= data y); repeat split.
Qed.

Lemma order_is_reversed_on_negative_witness :
  operator_lt (bfloat16_t_from_float binary32.lit_neg_1_0) negative_infinity
  = SFltb (binary32.decode (operator_float negative_infinity))
          (binary32.decode
             (operator_float (bfloat16_t_from_float binary32.lit_neg_1_0)))
  /\ operator_eq (bfloat16_t_from_float binary32.lit_neg_1_0) negative_infinity
     = SFeqb (binary32.decode
                (operator_float (bfloat16_t_from_float binary32.lit_neg_1_0)))
             (binary32.decode (operator_float negative_infinity)).
Proof.
  apply (order_is_reversed_on_negative
           (bfloat16_t_from_float binary32.lit_neg_1_0) negative_infinity);
    solve [ unfold valid, is_uint16; cbn; lia | reflexivity ].
Defined.

(** X18: across signs the pattern order is the opposite of the numeric
    one: when neither value is a NaN, [x] has its sign bit set and [y]
    has not, [x > y] holds although the widened [x] is numerically at
    most the widened [y]. *)
Theorem order_across_signs (x y : bfloat16_t) :
  valid x -> valid y ->
  is_nan x = false -> is_nan y = false ->
  is_negative x = true -> is_negative y = false ->
  operator_gt x y = true
  /\ SFleb (binary32.decode (operator_float x))
           (binary32.decode (operator_float y)) = true
  /\ SFltb (binary32.decode (operator_float y))
           (binary32.decode (operator_float x)) = false.
Proof.
  intros Hx Hy Nx Ny Sx Sy. split.
  - apply operator_gt_true.
    apply (is_negative_true x Hx) in Sx.
    destruct (Z.lt_ge_cases (data y) (2 ^ 15)) as [L | G]; [lia |].
    apply (is_negative_true y Hy) in G. congruence.
  - pose proof (decode_widened x Hx Nx) as Dx.
    pose proof (decode_widened y Hy Ny) as Dy.
    cbv zeta in Dx, Dy. rewrite Sx in Dx. rewrite Sy in Dy.
    destruct Dx as [[_ ->] | [[_ ->] | [_ (m & e & -> & _)]]];
      destruct Dy as [[_ ->] | [[_ ->] | [_ (n & e' & -> & _)]]];
      split; reflexivity.
Qed.

Lemma order_across_signs_witness :
  operator_gt (operator_neg zero) zero = true
  /\ SFleb (binary32.decode (operator_float (operator_neg zero)))
           (binary32.decode (operator_float zero)) = true
  /\ SFltb (binary32.decode (operator_float zero))
           (binary32.decode (operator_float (operator_neg zero))) = false.
Proof.
  apply (order_across_signs (operator_neg zero) zero);
    solve [ unfold valid, is_uint16; cbn; lia | reflexivity ].
Defined.

(** ** Results that need no rounding *)

(** X19: an arithmetic operator is exact whenever the float operation
    returns a 32-bit pattern whose lower half is zero: widening the
    operator's result gives the float result back. *)
Theorem exact_results_are_kept
  (float_add float_sub float_mul float_div : float -> float -> float)
  (a b : bfloat16_t) :
  let exact (r : float) :=
    binary32.wf r /\ Z.land (bit_cast_uint32 r) 0xFFFF = 0 in
  (exact (float_add (operator_float a) (operator_float b)) ->
   operator_float (operator_add float_add a b)
   = float_add (operator_float a) (operator_float b))
  /\ (exact (float_sub (operator_float a) (operator_float b)) ->
      operator_float (operator_sub float_sub a b)
      = float_sub (operator_float a) (operator_float b))
  /\ (exact (float_mul (operator_float a) (operator_float b)) ->
      operator_float (operator_mul float_mul a b)
      = float_mul (operator_float a) (operator_float b))
  /\ (exact (float_div (operator_float a) (operator_float b)) ->
      operator_float (operator_div float_div a b)
      = float_div (operator_float a) (operator_float b)).
Proof.
  cbv zeta. repeat split; intros [Hwf Hlow];
    exact (narrow_widen_exact _ Hwf Hlow).
Qed.

Lemma exact_results_are_kept_witness :
  let a := bfloat16_t_from_float binary32.lit_3_5 in
  let b := bfloat16_t_from_float binary32.lit_2_0 in
  operator_float (operator_add binary32.add a b)
  = binary32.add (operator_float a) (operator_float b)
  /\ operator_float (operator_sub binary32.sub a b)
     = binary32.sub (operator_float a) (operator_float b)
  /\ operator_float (operator_mul binary32.mul a b)
     = binary32.mul (operator_float a) (operator_float b)
  /\ operator_float (operator_div binary32.div a b)
     = binary32.div (operator_float a) (operator_float b).
Proof.
  cbv zeta.
  destruct (exact_results_are_kept
              binary32.add binary32.sub binary32.mul binary32.div
              (bfloat16_t_from_float binary32.lit_3_5)
              (bfloat16_t_from_float binary32.lit_2_0))
    as (Ha & Hs & Hm & Hd).
  assert (forall w, (0 <=? w) && (w <? 2 ^ 32) = true ->
                    binary32.wf (bit_cast_float w)) as Hwf.
  { intros w Hw. apply andb_true_iff in Hw. destruct Hw as [H1 H2].
    split; [now apply Z.leb_le | now apply Z.ltb_lt]. }
  split; [| split; [| split]].
  - apply Ha. split; [apply (Hwf 0x40B00000) |]; reflexivity.
  - apply Hs. split; [apply (Hwf 0x3FC00000) |]; reflexivity.
  - apply Hm. split; [apply (Hwf 0x40E00000) |]; reflexivity.
  - apply Hd. split; [apply (Hwf 0x3FE00000) |]; reflexivity.
Defined.

(** ** The operators over IEEE-754 binary32 arithmetic

    The statements below instantiate the float operations with binary32
    arithmetic.  Unless they say otherwise they are restricted to
    operands that are not NaN, where IEEE-754 fixes the result bit for
    bit. *)

(** The widened word, whatever the member holds. *)
Lemma operator_float_word (x : bfloat16_t) :
  bit_cast_uint32 (operator_float x) = data x mod 2 ^ 16 * 2 ^ 16.
Proof.
  unfold operator_float, to_uint32. cbn [bit_cast_uint32].
  rewrite Z.shiftl_mul_pow2 by lia. divmod_lia.
Qed.

(** A widened pattern is a NaN float exactly when [is_nan] accepts the
    pattern. *)
Lemma isnan_operator_float (x : bfloat16_t) :
  binary32.isnan (operator_float x) = is_nan x.
Proof.
  apply eq_true_iff_eq.
  rewrite isnan_true, is_nan_true, operator_float_word.
  split; intros [H1 H2]; split; divmod_lia.
Qed.

(** On operands that are not NaN the four operations are the IEEE-754
    ones of [spec_float]. *)
Lemma arithmetic_of_numbers (x y : bfloat16_t) :
  is_nan x = false -> is_nan y = false ->
  binary32.add (operator_float x) (operator_float y)
  = binary32.encode
      (SFadd binary32.prec binary32.emax
         (binary32.decode (operator_float x))
         (binary32.decode (operator_float y)))
  /\ binary32.sub (operator_float x) (operator_float y)
     = binary32.encode
         (SFsub binary32.prec binary32.emax
            (binary32.decode (operator_float x))
            (binary32.decode (operator_float y)))
  /\ binary32.mul (operator_float x) (operator_float y)
     = binary32.encode
         (SFmul binary32.prec binary32.emax
            (binary32.decode (operator_float x))
            (binary32.decode (operator_float y)))
  /\ binary32.div (operator_float x) (operator_float y)
     = binary32.encode
         (SFdiv binary32.prec binary32.emax
            (binary32.decode (operator_float x))
            (binary32.decode (operator_float y))).
Proof.
  intros Hx Hy.
  unfold binary32.add, binary32.sub, binary32.mul, binary32.div,
    binary32.nan_operand.
  rewrite !isnan_operator_float, Hx, Hy. repeat split.
Qed.

Lemma sqrt_of_number (x : bfloat16_t) :
  is_nan x = false ->
  binary32.sqrt (operator_float x)
  = binary32.encode
      (SFsqrt binary32.prec binary32.emax (binary32.decode (operator_float x))).
Proof.
  intros Hx. unfold binary32.sqrt. now rewrite isnan_operator_float, Hx.
Qed.

Lemma is_nan_operator_neg (x : bfloat16_t) :
  valid x -> is_nan (operator_neg x) = is_nan x.
Proof.
  intros Hx. destruct (operator_neg_fields x Hx) as (He & Hm & _).
  unfold is_nan. now rewrite He, Hm.
Qed.

Lemma SFadd_comm (p e : Z) (u v : spec_float) : SFadd p e u v = SFadd p e v u.
Proof.
  destruct u as [[|] | [|] | | su mu eu], v as [[|] | [|] | | sv mv ev];
    try reflexivity.
  cbn [SFadd]. rewrite (Z.min_comm ev eu). f_equal. apply Z.add_comm.
Qed.

Lemma SFmul_comm (p e : Z) (u v : spec_float) : SFmul p e u v = SFmul p e v u.
Proof.
  destruct u as [su | su | | su mu eu], v as [sv | sv | | sv mv ev];
    cbn [SFmul]; rewrite ?(xorb_comm sv su); try reflexivity.
  rewrite (Pos.mul_comm mv mu), (Z.add_comm ev eu). reflexivity.
Qed.

(** X20: addition and multiplication are commutative on operands that
    are not NaN. *)
Theorem add_mul_commutative (a b : bfloat16_t) :
  is_nan a = false -> is_nan b = false ->
  operator_add binary32.add a b = operator_add binary32.add b a
  /\ operator_mul binary32.mul a b = operator_mul binary32.mul b a.
Proof.
  intros Ha Hb.
  destruct (arithmetic_of_numbers a b Ha Hb) as (Eab & _ & Mab & _).
  destruct (arithmetic_of_numbers b a Hb Ha) as (Eba & _ & Mba & _).
  unfold operator_add, operator_add_assign, operator_mul, operator_mul_assign.
  rewrite Eab, Eba, Mab, Mba.
  split; f_equal; f_equal; [apply SFadd_comm | apply SFmul_comm].
Qed.

Lemma add_mul_commutative_witness :
  operator_add binary32.add numeric_limits.max negative_infinity
  = operator_add binary32.add negative_infinity numeric_limits.max
  /\ operator_mul binary32.mul numeric_limits.max negative_infinity
     = operator_mul binary32.mul negative_infinity numeric_limits.max.
Proof.
  apply (add_mul_commutative numeric_limits.max negative_infinity);
    reflexivity.
Defined.

(** Encoding what was decoded from a widened pattern that is not a NaN
    gives the widened pattern back. *)
Lemma encode_decode_widened (x : bfloat16_t) :
  valid x ->
  is_nan x = false ->
  binary32.encode (binary32.decode (operator_float x)) = operator_float x.
Proof.
  intros Hx Hnan.
  pose proof (operator_float_bits x Hx) as Hb.
  pose proof (is_negative_true x Hx) as Hn.
  pose proof (decode_widened x Hx Hnan) as D. cbv zeta in D.
  destruct (operator_float x) as [w] eqn:Ew. cbn [bit_cast_uint32] in Hb.
  unfold valid, is_uint16 in Hx.
  assert (binary32.sign_bits (is_negative x) = data x / 2 ^ 15 * 2 ^ 31) as Hs.
  { unfold binary32.sign_bits. destruct (is_negative x).
    - assert (2 ^ 15 <= data x) by now apply Hn. divmod_lia.
    - assert (~ 2 ^ 15 <= data x) by (intros C; apply Hn in C; discriminate).
      divmod_lia. }
  destruct D as [[Z0 ->] | [[I0 ->] | [F0 (m & e & -> & -> & M0)]]];
    unfold binary32.encode; f_equal; rewrite Hs, Hb.
  - divmod_lia.
  - divmod_lia.
  - destruct (Z.eqb_spec (data x mod 2 ^ 15 / 2 ^ 7) 0) as [E | E].
    + destruct (Z.ltb_spec (Z.pos m) (2 ^ 23)) as [L | L]; divmod_lia.
    + destruct (Z.ltb_spec (Z.pos m) (2 ^ 23)) as [L | L]; divmod_lia.
Qed.

Lemma is_zero_low_bits (x : bfloat16_t) :
  valid x -> (is_zero x = true <-> data x mod 2 ^ 15 = 0).
Proof.
  intros Hx. unfold is_zero.
  rewrite Z.eqb_eq, (land_not_SIGN_MASK _ Hx). reflexivity.
Qed.

Lemma is_infinity_low_bits (x : bfloat16_t) :
  valid x -> (is_infinity x = true <-> data x mod 2 ^ 15 = 0x7F80).
Proof.
  intros Hx. rewrite is_infinity_true. unfold valid, is_uint16 in Hx.
  split; [intros [H1 H2] | intros H; split]; divmod_lia.
Qed.

(** Narrowing the re-encoded value of a widened pattern. *)
Lemma from_float_encode_decode (x : bfloat16_t) :
  valid x ->
  is_nan x = false ->
  bfloat16_t_from_float (binary32.encode (binary32.decode (operator_float x)))
  = x.
Proof.
  intros Hx Hnan. rewrite (encode_decode_widened x Hx Hnan).
  now apply round_trip_widened.
Qed.

(** X21: [zero()] is a neutral element of addition on both sides, for
    every operand that is neither a NaN nor the negative zero. *)
Theorem add_zero_neutral (x : bfloat16_t) :
  valid x ->
  is_nan x = false ->
  is_zero x && is_negative x = false ->
  operator_add binary32.add x zero = x
  /\ operator_add binary32.add zero x = x.
Proof.
  intros Hx Hnan Hnz.
  assert (binary32.decode (operator_float zero) = S754_zero false) as Dz
      by reflexivity.
  assert (SFadd binary32.prec binary32.emax
                (binary32.decode (operator_float x)) (S754_zero false)
          = binary32.decode (operator_float x)
          /\ SFadd binary32.prec binary32.emax
                (S754_zero false) (binary32.decode (operator_float x))
             = binary32.decode (operator_float x)) as [Hr Hl].
  { pose proof (decode_widened x Hx Hnan) as D. cbv zeta in D.
    destruct D as [[Z0 ->] | [[I0 ->] | [F0 (m & e & -> & _)]]].
    - apply (is_zero_low_bits x Hx) in Z0. rewrite Z0 in Hnz.
      cbn [andb] in Hnz. rewrite Hnz. split; reflexivity.
    - destruct (is_negative x); split; reflexivity.
    - split; reflexivity. }
  destruct (arithmetic_of_numbers x zero Hnan eq_refl) as (Exz & _).
  destruct (arithmetic_of_numbers zero x eq_refl Hnan) as (Ezx & _).
  unfold operator_add, operator_add_assign.
  rewrite Exz, Ezx, Dz, Hr, Hl. split; now apply from_float_encode_decode.
Qed.

Lemma add_zero_neutral_witness :
  operator_add binary32.add negative_infinity zero = negative_infinity
  /\ operator_add binary32.add zero negative_infinity = negative_infinity.
Proof.
  apply (add_zero_neutral negative_infinity).
  - unfold valid, is_uint16. cbn. lia.
  - reflexivity.
  - reflexivity.
Defined.

(** X22: for every finite operand, [x - x] and [x + (-x)] are [zero()],
    the positive zero. *)
Theorem sub_self_is_zero (x : bfloat16_t) :
  valid x ->
  is_nan x = false ->
  is_infinity x = false ->
  operator_sub binary32.sub x x = zero
  /\ operator_add binary32.add x (operator_neg x) = zero.
Proof.
  intros Hx Hnan Hinf.
  destruct (decode_sign_operations x Hx) as [Dn _].
  assert (SFsub binary32.prec binary32.emax
                (binary32.decode (operator_float x))
                (binary32.decode (operator_float x)) = S754_zero false
          /\ SFadd binary32.prec binary32.emax
                (binary32.decode (operator_float x))
                (SFopp (binary32.decode (operator_float x)))
             = S754_zero false) as [Hs Ha].
  { pose proof (decode_widened x Hx Hnan) as D. cbv zeta in D.
    destruct D as [[Z0 ->] | [[I0 ->] | [F0 (m & e & -> & _)]]].
    - destruct (is_negative x); split; reflexivity.
    - apply (is_infinity_low_bits x Hx) in I0. congruence.
    - cbn [SFsub SFadd SFopp]. rewrite Z.sub_diag.
      destruct (is_negative x); cbn [negb cond_Zopp];
        rewrite ?Z.add_opp_diag_r, ?Z.add_opp_diag_l; split; reflexivity. }
  assert (is_nan (operator_neg x) = false) as Hnn
      by (rewrite (is_nan_operator_neg x Hx); exact Hnan).
  destruct (arithmetic_of_numbers x x Hnan Hnan) as (_ & Exx & _).
  destruct (arithmetic_of_numbers x (operator_neg x) Hnan Hnn) as (Exn & _).
  unfold operator_sub, operator_sub_assign, operator_add, operator_add_assign.
  rewrite Exx, Exn, Dn, Hs, Ha. split; reflexivity.
Qed.

Lemma sub_self_is_zero_witness :
  operator_sub binary32.sub numeric_limits.lowest numeric_limits.lowest = zero
  /\ operator_add binary32.add numeric_limits.lowest
                   (operator_neg numeric_limits.lowest) = zero.
Proof.
  apply (sub_self_is_zero numeric_limits.lowest).
  - unfold valid, is_uint16. cbn. lia.
  - reflexivity.
  - reflexivity.
Defined.

(** X23: [sqrt] at the edges of its domain, over the correctly rounded
    binary32 square root: a zero of either sign is returned unchanged, and
    a value with the sign bit set that is neither zero nor NaN gives the
    narrowing of the default NaN of the float unit, the pattern [0xFFC0],
    which is a NaN. *)
Theorem sqrt_domain_edges (x : bfloat16_t) :
  valid x ->
  is_nan x = false ->
  (is_zero x = true -> sqrt binary32.sqrt x = x)
  /\ (is_zero x = false -> is_negative x = true ->
      is_nan (sqrt binary32.sqrt x) = true
      /\ bits (sqrt binary32.sqrt x) = 0xFFC0).
Proof.
  intros Hx Hnan.
  pose proof (decode_widened x Hx Hnan) as D. cbv zeta in D.
  unfold sqrt. rewrite (sqrt_of_number x Hnan). split.
  - intros Hz. apply (is_zero_low_bits x Hx) in Hz.
    destruct D as [[_ E] | [[I0 _] | [F0 _]]]; [| lia | lia].
    rewrite <- (from_float_encode_decode x Hx Hnan) at 2.
    rewrite E. reflexivity.
  - intros Hz Hs. rewrite Hs in D.
    destruct D as [[Z0 _] | [[_ ->] | [_ (m & e & -> & _)]]].
    + apply (is_zero_low_bits x Hx) in Z0. congruence.
    + split; reflexivity.
    + split; reflexivity.
Qed.

Lemma sqrt_domain_edges_witness :
  is_nan (sqrt binary32.sqrt (bfloat16_t_from_float binary32.lit_neg_1_0))
  = true
  /\ bits (sqrt binary32.sqrt (bfloat16_t_from_float binary32.lit_neg_1_0))
     = 0xFFC0.
Proof.
  destruct (sqrt_domain_edges (bfloat16_t_from_float binary32.lit_neg_1_0))
    as [_ H].
  - unfold valid, is_uint16. cbn. lia.
  - reflexivity.
  - apply H; reflexivity.
Defined.

(** ** What the accessors mean *)

(** X24: on a finite non-zero pattern whose reported exponent is not
    [-127], the widened float is [(2^7 + get_mantissa) * 2^(get_exponent
    - 7)] with the sign of [get_sign], and the exponent lies between the
    [min_exponent] and [max_exponent] of the limits.  When the reported
    exponent is [-127] the pattern is subnormal and the value is
    [get_mantissa * 2^(-126 - 7)]. *)
Theorem accessors_give_the_value (x : bfloat16_t) :
  valid x ->
  is_zero x = false -> is_nan x = false -> is_infinity x = false ->
  (get_exponent x <> - 127 ->
   numeric_limits.min_exponent <= get_exponent x <= numeric_limits.max_exponent
   /\ exists m,
       binary32.decode (operator_float x)
       = S754_finite (get_sign x) m (get_exponent x - 7 - 16)
       /\ Zpos m = (2 ^ 7 + get_mantissa x) * 2 ^ 16)
  /\ (get_exponent x = - 127 ->
      exists m,
        binary32.decode (operator_float x)
        = S754_finite (get_sign x) m (numeric_limits.min_exponent - 7 - 16)
        /\ Zpos m = get_mantissa x * 2 ^ 16).
Proof.
  intros Hx Hz Hnan Hinf.
  destruct (get_exponent_finite x Hz Hnan Hinf) as [Eg Bg].
  pose proof (decode_widened x Hx Hnan) as D. cbv zeta in D.
  assert (get_mantissa x = data x mod 2 ^ 7) as Em.
  { unfold get_mantissa. rewrite land_MANT_MASK.
    apply to_uint16_small. unfold is_uint16. divmod_lia. }
  unfold get_sign, numeric_limits.min_exponent, numeric_limits.max_exponent.
  unfold EXP_BIAS in Eg.
  destruct D as [[Z0 _] | [[I0 _] | [F0 (m & e & -> & -> & M0)]]].
  - apply (is_zero_low_bits x Hx) in Z0. congruence.
  - apply (is_infinity_low_bits x Hx) in I0. congruence.
  - unfold valid, is_uint16 in Hx.
    assert ((data x / 2 ^ 7) mod 2 ^ 8 = data x mod 2 ^ 15 / 2 ^ 7) as Ef
        by divmod_lia.
    assert ((data x mod 2 ^ 15) mod 2 ^ 7 = data x mod 2 ^ 7) as Er
        by divmod_lia.
    rewrite Er in M0. rewrite Ef in Eg. split; intros Hg.
    + split; [lia |]. exists m. split; [f_equal; lia |].
      destruct (Z.eqb_spec (data x mod 2 ^ 15 / 2 ^ 7) 0) as [E0 | E0];
        [lia |]. rewrite M0, Em. pow2_numerals. lia.
    + exists m. split; [f_equal; lia |].
      destruct (Z.eqb_spec (data x mod 2 ^ 15 / 2 ^ 7) 0) as [E0 | E0];
        [| lia]. rewrite M0, Em. lia.
Qed.

Lemma accessors_give_the_value_witness :
  exists m,
    binary32.decode (operator_float (bfloat16_t_from_float binary32.lit_1_5))
    = S754_finite (get_sign (bfloat16_t_from_float binary32.lit_1_5)) m
                  (get_exponent (bfloat16_t_from_float binary32.lit_1_5) - 7 - 16)
    /\ Zpos m
       = (2 ^ 7 + get_mantissa (bfloat16_t_from_float binary32.lit_1_5)) * 2 ^ 16.
Proof.
  destruct (accessors_give_the_value (bfloat16_t_from_float binary32.lit_1_5))
    as [H _].
  - unfold valid, is_uint16. cbn. lia.
  - reflexivity.
  - reflexivity.
  - reflexivity.
  - apply H. cbn. lia.
Defined.

(** X25: among patterns with the sign bit clear, [denorm_min()] is the
    least one that is not zero and [min()] is the least one with a
    non-zero exponent field. *)
Theorem least_positive_patterns (x : bfloat16_t) :
  valid x ->
  is_negative x = false ->
  (is_zero x = false <-> operator_le numeric_limits.denorm_min x = true)
  /\ (Z.land (bits x) EXP_MASK <> 0
      <-> operator_le numeric_limits.min x = true).
Proof.
  intros Hx Hs.
  assert (data x < 2 ^ 15) as Hlt.
  { destruct (Z.lt_ge_cases (data x) (2 ^ 15)) as [L | G]; [exact L |].
    apply (is_negative_true x Hx) in G. congruence. }
  rewrite <- not_true_iff_false, (is_zero_low_bits x Hx), !operator_le_true.
  unfold bits. rewrite land_EXP_MASK.
  change (data numeric_limits.denorm_min) with 1.
  change (data numeric_limits.min) with 128.
  unfold valid, is_uint16 in Hx.
  split; split; intros H; divmod_lia.
Qed.

Lemma least_positive_patterns_witness :
  (is_zero numeric_limits.epsilon = false
   <-> operator_le numeric_limits.denorm_min numeric_limits.epsilon = true)
  /\ (Z.land (bits numeric_limits.epsilon) EXP_MASK <> 0
      <-> operator_le numeric_limits.min numeric_limits.epsilon = true).
Proof.
  apply (least_positive_patterns numeric_limits.epsilon).
  - unfold valid, is_uint16. cbn. lia.
  - reflexivity.
Defined.

(** ** Special operands *)





(** X26: [infinity()] absorbs: added on either side to anything that is
    neither a NaN nor [negative_infinity()] it gives [infinity()], and
    multiplied by anything that is neither a NaN nor a zero it gives an
    infinity with the sign of the other operand. *)
Theorem infinity_absorbs (x : bfloat16_t) :
  valid x ->
  is_nan x = false ->
  (is_infinity x && is_negative x = false ->
   operator_add binary32.add x infinity = infinity
   /\ operator_add binary32.add infinity x = infinity)
  /\ (is_zero x = false ->
      is_infinity (operator_mul binary32.mul x infinity) = true
      /\ is_negative (operator_mul binary32.mul x infinity) = is_negative x).
Proof.
  intros Hx Hnan.
  assert (binary32.decode (operator_float infinity) = S754_infinity false)
    as Di by reflexivity.
  pose proof (decode_widened x Hx Hnan) as D. cbv zeta in D.
  destruct (arithmetic_of_numbers x infinity Hnan eq_refl) as (Exi & _ & Mxi & _).
  destruct (arithmetic_of_numbers infinity x eq_refl Hnan) as (Eix & _).
  unfold operator_add, operator_add_assign, operator_mul, operator_mul_assign.
  rewrite Exi, Eix, Mxi, Di. split.
  - intros Hni.
    destruct D as [[_ ->] | [[I0 ->] | [_ (m & e & -> & _)]]].
    + destruct (is_negative x); split; reflexivity.
    + apply (is_infinity_low_bits x Hx) in I0. rewrite I0 in Hni.
      cbn [andb] in Hni. rewrite Hni. split; reflexivity.
    + destruct (is_negative x); split; reflexivity.
  - intros Hz.
    destruct D as [[Z0 _] | [[_ ->] | [_ (m & e & -> & _)]]].
    + apply (is_zero_low_bits x Hx) in Z0. congruence.
    + destruct (is_negative x); split; reflexivity.
    + destruct (is_negative x); split; reflexivity.
Qed.

Lemma infinity_absorbs_witness :
  is_infinity (operator_mul binary32.mul numeric_limits.lowest infinity) = true
  /\ is_negative (operator_mul binary32.mul numeric_limits.lowest infinity)
     = is_negative numeric_limits.lowest.
Proof.
  destruct (infinity_absorbs numeric_limits.lowest) as [_ H].
  - unfold valid, is_uint16. cbn. lia.
  - reflexivity.
  - apply H. reflexivity.
Defined.

(** ** The arithmetic operators as compiled *)

(** The compiled operators are the generic ones at the binary32
    operations. *)
Lemma ieee754_operators (a b : bfloat16_t) :
  ieee754.operator_add a b = operator_add binary32.add a b
  /\ ieee754.operator_sub a b = operator_sub binary32.sub a b
  /\ ieee754.operator_mul a b = operator_mul binary32.mul a b
  /\ ieee754.operator_div a b = operator_div binary32.div a b.
Proof. repeat split. Qed.

(** C5: each binary operator returns the narrowing of the IEEE-754
    binary32 operation of its own kind applied to the two widened
    operands, and the matching compound assignment leaves exactly that
    pattern in the receiver.  On operands that are not NaN the operation
    is the one of [spec_float] at precision 24 and [emax] 128: [SFadd] for
    [+], [SFsub] for [-], [SFmul] for [*], [SFdiv] for [/]; on [3.5] and
    [2.0] the four results are [5.5], [1.5], [7.0] and [1.75]. *)
Theorem C5_operators_widen_compute_narrow (a b : bfloat16_t) :
  let narrow := bfloat16_t_from_float in
  let widen := operator_float in
  let value (x : bfloat16_t) := binary32.decode (operator_float x) in
  (ieee754.operator_add a b = narrow (binary32.add (widen a) (widen b))
   /\ ieee754.operator_sub a b = narrow (binary32.sub (widen a) (widen b))
   /\ ieee754.operator_mul a b = narrow (binary32.mul (widen a) (widen b))
   /\ ieee754.operator_div a b = narrow (binary32.div (widen a) (widen b)))
  /\ (bits (ieee754.operator_add_assign a b) = bits (ieee754.operator_add a b)
      /\ bits (ieee754.operator_sub_assign a b) = bits (ieee754.operator_sub a b)
      /\ bits (ieee754.operator_mul_assign a b) = bits (ieee754.operator_mul a b)
      /\ bits (ieee754.operator_div_assign a b) = bits (ieee754.operator_div a b))
  /\ (is_nan a = false -> is_nan b = false ->
      ieee754.operator_add a b
      = narrow (binary32.encode (SFadd 24 128 (value a) (value b)))
      /\ ieee754.operator_sub a b
         = narrow (binary32.encode (SFsub 24 128 (value a) (value b)))
      /\ ieee754.operator_mul a b
         = narrow (binary32.encode (SFmul 24 128 (value a) (value b)))
      /\ ieee754.operator_div a b
         = narrow (binary32.encode (SFdiv 24 128 (value a) (value b))))
  /\ (bits (ieee754.operator_add (narrow binary32.lit_3_5)
                                 (narrow binary32.lit_2_0)) = 0x40B0
      /\ bits (ieee754.operator_sub (narrow binary32.lit_3_5)
                                    (narrow binary32.lit_2_0)) = 0x3FC0
      /\ bits (ieee754.operator_mul (narrow binary32.lit_3_5)
                                    (narrow binary32.lit_2_0)) = 0x40E0
      /\ bits (ieee754.operator_div (narrow binary32.lit_3_5)
                                    (narrow binary32.lit_2_0)) = 0x3FE0).
Proof.
  cbv zeta.
  split; [repeat split |]. split; [repeat split |]. split.
  - intros Ha Hb.
    destruct (arithmetic_of_numbers a b Ha Hb) as (Ea & Es & Em & Ed).
    unfold ieee754.operator_add, ieee754.operator_add_assign,
      ieee754.operator_sub, ieee754.operator_sub_assign,
      ieee754.operator_mul, ieee754.operator_mul_assign,
      ieee754.operator_div, ieee754.operator_div_assign.
    rewrite Ea, Es, Em, Ed. repeat split.
  - repeat split; vm_compute; reflexivity.
Qed.

Lemma C5_operators_widen_compute_narrow_witness :
  let a := bfloat16_t_from_float binary32.lit_3_5 in
  let b := bfloat16_t_from_float binary32.lit_1_5 in
  ieee754.operator_add a b
  = bfloat16_t_from_float
      (binary32.encode
         (SFadd 24 128 (binary32.decode (operator_float a))
                       (binary32.decode (operator_float b))))
  /\ ieee754.operator_sub a b
     = bfloat16_t_from_float
         (binary32.encode
            (SFsub 24 128 (binary32.decode (operator_float a))
                          (binary32.decode (operator_float b))))
  /\ ieee754.operator_mul a b
     = bfloat16_t_from_float
         (binary32.encode
            (SFmul 24 128 (binary32.decode (operator_float a))
                          (binary32.decode (operator_float b))))
  /\ ieee754.operator_div a b
     = bfloat16_t_from_float
         (binary32.encode
            (SFdiv 24 128 (binary32.decode (operator_float a))
                          (binary32.decode (operator_float b)))).
Proof.
  cbv zeta.
  destruct (C5_operators_widen_compute_narrow
              (bfloat16_t_from_float binary32.lit_3_5)
              (bfloat16_t_from_float binary32.lit_1_5)) as (_ & _ & H & _).
  apply H; reflexivity.
Defined.
